(** * WhatsApp bulk messenger: the dispatch engine of [whatsapp_api.py]

    A shallow embedding of the class [WhatsAppAPI] (rate limiter,
    [send_message] with its retries, [send_bulk_messages] with its result
    summary and progress callback, and the two phone-number helpers),
    followed by the properties of the specification that concern it.

    How the Python is read:
    - an [int] is a [Z]; a [str] is a [string], one character per code point
      below 256; a [dict] is a [gmap] with string keys, and the fixed-shape
      [results] dictionary is a record;
    - [time.time()] is a rational number of seconds, and the clock advances
      in [time.sleep] only; the progress percentage is the binary64 float the
      code computes;
    - the effects (sleeps, requests, callback invocations) are appended to a
      trace, and the mutable fields of the object travel with it in a
      [World]; calls to the logger are left out;
    - the transport ([requests.post]), [str.format] and the progress callback
      are parameters; a call that may raise returns a [Result];
    - the polling loop and the retry recursion take fuel, and the properties
      say how much is enough for them to return. *)

From Stdlib Require Import QArith Lqa Ascii String PrimFloat Uint63.
From stdpp Require Import gmap strings list pretty.

Local Open Scope string_scope.
Local Open Scope list_scope.
Local Open Scope Z_scope.

(** ** Python values *)

(** Exceptions that are instances of [Exception].  [KeyError] and
    [requests.RequestException] are the two classes the code depends on;
    every other class is kept with its name and message. *)
Inductive exn : Type :=
  | KeyError (key : string)
  | RequestException (msg : string)
  | OtherException (cls msg : string).

(** [repr] of a string, as [str(KeyError(key))] prints the key: in single
    quotes, or in double quotes when the string has a single quote and no
    double quote; the quote in use and the backslash are escaped, and so are
    the characters that are not printable (below 256: the control characters,
    U+007F to U+00A0 and U+00AD). *)
Definition double_quote : ascii := ascii_of_nat 34.

Definition single_quote : ascii := ascii_of_nat 39.

Definition backslash : ascii := ascii_of_nat 92.

Fixpoint has_char (c : ascii) (s : string) : bool :=
  match s with
  | EmptyString => false
  | String c' s' => bool_decide (c' = c) || has_char c s'
  end.

Definition hex_digit (n : N) : ascii :=
  if (n <? 10)%N then ascii_of_N (48 + n) else ascii_of_N (87 + n).

Definition isprintable (c : ascii) : bool :=
  let n := N_of_ascii c in
  negb ((n <? 32)%N || ((127 <=? n)%N && (n <=? 160)%N) || (n =? 173)%N).

(** One character of [repr], inside the quote [q]. *)
Definition repr_char (q c : ascii) : string :=
  let n := N_of_ascii c in
  if bool_decide (c = q) || bool_decide (c = backslash) then String backslash (String c "")
  else if (n =? 9)%N then String backslash "t"
  else if (n =? 10)%N then String backslash "n"
  else if (n =? 13)%N then String backslash "r"
  else if isprintable c then String c ""
  else String backslash (String "x" (String (hex_digit (n / 16)) (String (hex_digit (n mod 16)) ""))).

Fixpoint repr_chars (q : ascii) (s : string) : string :=
  match s with
  | EmptyString => EmptyString
  | String c s' => repr_char q c +:+ repr_chars q s'
  end.

Definition repr (s : string) : string :=
  let q := if has_char single_quote s && negb (has_char double_quote s)
           then double_quote else single_quote in
  String q (repr_chars q s +:+ String q "").

(** [str(e)] *)
Definition str_exn (e : exn) : string :=
  match e with
  | KeyError key => repr key
  | RequestException msg => msg
  | OtherException _ msg => msg
  end.

(** The outcome of a Python call: a value, or a raised exception. *)
Inductive Result (A : Type) : Type :=
  | Return (a : A)
  | Raise (e : exn).
Arguments Return {A} a.
Arguments Raise {A} e.

(** The Python values [response.json()] builds: [None], a [bool], an [int],
    a [float], a [str], a [list] or a [dict] with string keys. *)
#[warnings="-register-all"]
Inductive Value : Type :=
  | VNone
  | VBool (b : bool)
  | VInt (z : Z)
  | VFloat (x : float)
  | VStr (s : string)
  | VList (l : list Value)
  | VDict (d : gmap string Value).

(** A contact is a row of the CSV file: field name to text. *)
Abbreviation Contact := (gmap string string).

(** A [dict] with string keys. *)
Abbreviation Dict := (gmap string Value).

Definition TypeError (msg : string) : exn := OtherException "TypeError" msg.

(** [type(v).__name__] *)
Definition type_name (v : Value) : string :=
  match v with
  | VNone => "NoneType"
  | VBool _ => "bool"
  | VInt _ => "int"
  | VFloat _ => "float"
  | VStr _ => "str"
  | VList _ => "list"
  | VDict _ => "dict"
  end.

(** [s.startswith(p)] *)
Fixpoint startswith (p s : string) : bool :=
  match p, s with
  | EmptyString, _ => true
  | String c p', String c' s' => bool_decide (c = c') && startswith p' s'
  | String _ _, EmptyString => false
  end.

(** [p in s] for two strings: [p] occurs in [s]. *)
Fixpoint occurs_in (p s : string) : bool :=
  startswith p s
  || match s with
     | EmptyString => false
     | String _ s' => occurs_in p s'
     end.

Definition is_str (key : string) (v : Value) : bool :=
  match v with
  | VStr s => bool_decide (s = key)
  | _ => false
  end.

(** [key in v]: a key of a [dict], an element of a [list], a substring of a
    [str]; any other value is not iterable.  (The texts of the [TypeError]s
    are those of CPython 3.12.) *)
Definition contains (key : string) (v : Value) : Result bool :=
  match v with
  | VDict d => Return (bool_decide (is_Some (d !! key)))
  | VList l => Return (existsb (is_str key) l)
  | VStr s => Return (occurs_in key s)
  | _ => Raise (TypeError ("argument of type '" +:+ type_name v +:+ "' is not iterable"))
  end.

(** [v[key]] for a string [key]. *)
Definition getitem (key : string) (v : Value) : Result Value :=
  match v with
  | VDict d =>
      match d !! key with
      | Some x => Return x
      | None => Raise (KeyError key)
      end
  | VList _ => Raise (TypeError "list indices must be integers or slices, not str")
  | VStr _ => Raise (TypeError "string indices must be integers, not 'str'")
  | _ => Raise (TypeError ("'" +:+ type_name v +:+ "' object is not subscriptable"))
  end.

(** ** Phone number helpers *)

(** [str.isdigit] on one character: the ASCII digits and, below 256, the
    superscripts U+00B2, U+00B3 and U+00B9. *)
Definition isdigit (c : ascii) : bool :=
  let n := N_of_ascii c in
  ((48 <=? n)%N && (n <=? 57)%N) || (n =? 178)%N || (n =? 179)%N || (n =? 185)%N.

(** [''.join(filter(p, s))] *)
Fixpoint join_filter (p : ascii -> bool) (s : string) : string :=
  match s with
  | EmptyString => EmptyString
  | String c s' => if p c then String c (join_filter p s') else join_filter p s'
  end.

(** [s.startswith('+')] *)
Definition startswith_plus (s : string) : bool :=
  match s with
  | String c _ => bool_decide (c = "+"%char)
  | EmptyString => false
  end.

(** [len(s)] *)
Definition len (s : string) : Z := Z.of_nat (String.length s).

Definition validate_phone_number (phone_number : string) : bool :=
  let cleaned_number := join_filter isdigit phone_number in
  if (len cleaned_number <? 10) || (len cleaned_number >? 15) then false
  else true.

Definition format_phone_number (phone_number : string) : string :=
  let cleaned_number := join_filter isdigit phone_number in
  let cleaned_number :=
    if negb (startswith_plus cleaned_number) then "+" +:+ cleaned_number
    else cleaned_number in
  cleaned_number.

(** ** Configuration ([config.py]) *)

Record Config : Type := {
  MAX_RETRIES : Z;   (* maximum number of retry attempts for failed messages *)
  RETRY_DELAY : Z;   (* delay in seconds between retry attempts *)
  RATE_LIMIT : Z     (* maximum messages per minute *)
}.

(** The values of [config.py]. *)
Definition config : Config :=
  {| MAX_RETRIES := 3; RETRY_DELAY := 5; RATE_LIMIT := 20 |}.

(** ** The world around the engine *)

(** The JSON body [send_message] posts: a text message, or an image when an
    image URL is given.  The endpoint and the headers are the same for every
    request and are left out. *)
Inductive Payload : Type :=
  | TextPayload (to body : string)
  | ImagePayload (to url : string).

(** What one call of [requests.post] does: it answers with a status code and
    a body, or it raises.  [json] is what [response.json()] then returns (any
    JSON value) or raises. *)
Inductive Attempt : Type :=
  | Response (status_code : Z) (json : Result Value)
  | PostRaises (e : exn).

(** The transport: the answer to a request, given how many requests were
    made before it. *)
Definition Transport : Type := nat -> Payload -> Attempt.

(** One entry of [results["failures"]]. *)
Record Failure : Type := {
  contact : Contact;
  error : Value
}.

(** The [results] dictionary of [send_bulk_messages]. *)
Record Results : Type := {
  total : Z;
  successful : Z;
  failed : Z;
  failures : list Failure
}.

(** A progress callback: it observes the percentage and the results and
    returns ([None]) or raises ([Some e]). *)
Definition Callback : Type := float -> Results -> option exn.

(** The effects of the engine, in the order they happen. *)
Inductive Event : Type :=
  | EvThrottle                                   (* [time.sleep(1)] of the rate limiter *)
  | EvBackoff                                    (* [time.sleep(RETRY_DELAY)] *)
  | EvPost (payload : Payload) (answer : Attempt)    (* [requests.post] *)
  | EvProgress (progress : float) (results : Results).  (* [callback(progress, results)] *)

(** The fields of a [WhatsAppAPI] object that change. *)
Record WhatsAppAPI : Type := {
  message_count : Z;
  last_reset_time : Q
}.

(** The object, the clock read by [time.time()] (in seconds; it advances in
    [time.sleep]) and the effects so far. *)
Record World : Type := {
  self : WhatsAppAPI;
  clock : Q;
  trace : list Event
}.

(** [WhatsAppAPI()] at time [now]. *)
Definition init (now : Q) : World :=
  {| self := {| message_count := 0; last_reset_time := now |};
     clock := now;
     trace := [] |}.

Definition set_self (a : WhatsAppAPI) (w : World) : World :=
  {| self := a; clock := clock w; trace := trace w |}.

Definition emit (ev : Event) (w : World) : World :=
  {| self := self w; clock := clock w; trace := trace w ++ [ev] |}.

(** [time.sleep(seconds)] *)
Definition sleep (seconds : Z) (ev : Event) (w : World) : World :=
  {| self := self w; clock := (clock w + inject_Z seconds)%Q;
     trace := trace w ++ [ev] |}.

Definition is_post (ev : Event) : bool :=
  match ev with EvPost _ _ => true | _ => false end.

Definition is_throttle (ev : Event) : bool :=
  match ev with EvThrottle => true | _ => false end.

(** The number of requests made so far. *)
Definition posts (t : list Event) : nat := length (List.filter is_post t).

(** The number of one-second waits of the rate limiter so far. *)
Definition throttles (t : list Event) : nat := length (List.filter is_throttle t).

(** The invocations of the progress callback so far. *)
Fixpoint progress_calls (t : list Event) : list (float * Results) :=
  match t with
  | [] => []
  | EvProgress p r :: t' => (p, r) :: progress_calls t'
  | _ :: t' => progress_calls t'
  end.

(** ** The rate limiter *)

(** [_check_rate_limit], with [current_time] the value of [time.time()]. *)
Definition _check_rate_limit (cfg : Config) (current_time : Q) (api : WhatsAppAPI)
  : bool * WhatsAppAPI :=
  let api :=
    if Qle_bool 60 (current_time - last_reset_time api)
    then {| message_count := 0; last_reset_time := current_time |}
    else api in
  if message_count api >=? RATE_LIMIT cfg then (false, api) else (true, api).

(** [_wait_for_rate_limit]: [fuel] bounds the number of checks; [None] is a
    loop that has not ended within it. *)
Fixpoint _wait_for_rate_limit (cfg : Config) (fuel : nat) (w : World) : option World :=
  match fuel with
  | O => None
  | S fuel' =>
      let '(ok, api) := _check_rate_limit cfg (clock w) (self w) in
      let w := set_self api w in
      if ok then Some w
      else _wait_for_rate_limit cfg fuel' (sleep 1 EvThrottle w)
  end.

(** ** The dispatch engine *)

(** [time.sleep] of a negative number of seconds raises. *)
Definition sleep_error : exn :=
  OtherException "ValueError" "sleep length must be non-negative".

(** The payload of [send_message]: [if image_url:] holds for a non-empty
    string. *)
Definition build_payload (phone_number message : string) (image_url : option string)
  : Payload :=
  match image_url with
  | Some url => if bool_decide (url = "") then TextPayload phone_number message
                else ImagePayload phone_number url
  | None => TextPayload phone_number message
  end.

(** [self.message_count += 1] *)
Definition counted (api : WhatsAppAPI) : WhatsAppAPI :=
  {| message_count := message_count api + 1;
     last_reset_time := last_reset_time api |}.

Definition count_message (w : World) : World := set_self (counted (self w)) w.

Definition status_error_msg (phone_number : string) (status_code : Z) : string :=
  "Failed to send message to " +:+ phone_number +:+ ". Status: " +:+ pretty status_code.

Definition network_error_msg (phone_number msg : string) : string :=
  "Network error while sending message to " +:+ phone_number +:+ ": " +:+ msg.

(** The dictionary returned when the retries are used up after a response. *)
Definition status_error (phone_number : string) (status_code : Z) : Dict :=
  <["error" := VStr (status_error_msg phone_number status_code)]>
    (<["status_code" := VInt status_code]> ∅).

(** The dictionary returned when they are used up after a
    [requests.RequestException]. *)
Definition network_error (phone_number msg : string) : Dict :=
  <["error" := VStr (network_error_msg phone_number msg)]> ∅.

Section Engine.

Variable cfg : Config.

(** [message_template.format] with the fields of the contact as keyword
    arguments: the rendered text, or the exception [str.format] raises. *)
Variable format : string -> Contact -> Result string.

Variable transport : Transport.

(** [send_message].  [fuel] bounds the depth of the recursion and the
    checks of each wait; [None] is a call that has not returned within
    it.  The result is the returned value (the decoded body, or a
    dictionary with the error), or an exception that is not a
    [requests.RequestException] and leaves the function. *)
Fixpoint send_message (fuel : nat) (phone_number message : string)
    (image_url : option string) (retry_count : Z) (w : World)
  : option (Result Value * World) :=
  match fuel with
  | O => None
  | S fuel' =>
      match _wait_for_rate_limit cfg fuel w with
      | None => None
      | Some w =>
          let payload := build_payload phone_number message image_url in
          let answer := transport (posts (trace w)) payload in
          let w := emit (EvPost payload answer) w in
          (* both failure paths: retry after the delay, or give up *)
          let retry_or (final : Value) (w : World) :=
            if retry_count <? MAX_RETRIES cfg then
              if RETRY_DELAY cfg <? 0 then Some (Raise sleep_error, w)
              else send_message fuel' phone_number message image_url
                     (retry_count + 1) (sleep (RETRY_DELAY cfg) EvBackoff w)
            else Some (Return final, w) in
          match answer with
          | Response status_code json =>
              if status_code =? 200 then
                let w := count_message w in
                match json with
                | Return d => Some (Return d, w)
                | Raise (RequestException msg) =>
                    retry_or (VDict (network_error phone_number msg)) w
                | Raise e => Some (Raise e, w)
                end
              else retry_or (VDict (status_error phone_number status_code)) w
          | PostRaises (RequestException msg) =>
              retry_or (VDict (network_error phone_number msg)) w
          | PostRaises e => Some (Raise e, w)
          end
      end
  end.

(** [results["failed"] += 1; results["failures"].append(...)] *)
Definition record_failure (c : Contact) (err : Value) (results : Results) : Results :=
  {| total := total results;
     successful := successful results;
     failed := failed results + 1;
     failures := failures results ++ [ {| contact := c; error := err |} ] |}.

(** [results["successful"] += 1] *)
Definition record_success (results : Results) : Results :=
  {| total := total results;
     successful := successful results + 1;
     failed := failed results;
     failures := failures results |}.

(** The [except Exception as e] branch of the loop body. *)
Definition on_exception (c : Contact) (e : exn) (results : Results) : Results :=
  record_failure c (VStr (str_exn e)) results.

(** [results["failed"] += 1] alone. *)
Definition count_failed (results : Results) : Results :=
  {| total := total results;
     successful := successful results;
     failed := failed results + 1;
     failures := failures results |}.

(** [results["failures"].append(...)] alone. *)
Definition append_failure (c : Contact) (err : Value) (results : Results) : Results :=
  {| total := total results;
     successful := successful results;
     failed := failed results;
     failures := failures results ++ [ {| contact := c; error := err |} ] |}.

(** The [if "error" not in response: ... else: ...] of the loop body: the
    updated results, or the exception raised on the way with the results as
    they are at that point ([failed] is incremented before
    [response["error"]] is evaluated). *)
Definition update_results (c : Contact) (response : Value) (results : Results)
  : Results + exn * Results :=
  match contains "error" response with
  | Raise e => inr (e, results)
  | Return false => inl (record_success results)
  | Return true =>
      let results := count_failed results in
      match getitem "error" response with
      | Raise e => inr (e, results)
      | Return err => inl (append_failure c err results)
      end
  end.

(** An [int] below [2^53] as a float. *)
Definition float_of_nat (n : nat) : float :=
  PrimFloat.of_uint63 (Uint63.of_Z (Z.of_nat n)).

(** [(index + 1) / len(contacts) * 100]: the quotient of the two integers
    rounded to a float, times 100. *)
Definition progress_of (index n : nat) : float :=
  (float_of_nat (index + 1) / float_of_nat n * 100)%float.

(** The body of the loop of [send_bulk_messages] for the contact at
    [index] of [n]. *)
Definition process_contact (fuel : nat) (message_template : string)
    (image_url : option string) (callback : option Callback)
    (n index : nat) (c : Contact) (results : Results) (w : World)
  : option (Results * World) :=
  match format message_template c with
  | Raise e => Some (on_exception c e results, w)
  | Return custom_message =>
      match c !! "phone_number" with
      | None => Some (on_exception c (KeyError "phone_number") results, w)
      | Some phone_number =>
          match send_message fuel phone_number custom_message image_url 0 w with
          | None => None
          | Some (Raise e, w) => Some (on_exception c e results, w)
          | Some (Return response, w) =>
              match update_results c response results with
              | inr (e, results) => Some (on_exception c e results, w)
              | inl results =>
                  match callback with
                  | None => Some (results, w)
                  | Some cb =>
                      let progress := progress_of index n in
                      let w := emit (EvProgress progress results) w in
                      match cb progress results with
                      | None => Some (results, w)
                      | Some e => Some (on_exception c e results, w)
                      end
                  end
              end
          end
      end
  end.

(** [for index, contact in enumerate(contacts)], from [index] on. *)
Fixpoint bulk_loop (fuel : nat) (message_template : string)
    (image_url : option string) (callback : option Callback)
    (n index : nat) (contacts : list Contact) (results : Results) (w : World)
  : option (Results * World) :=
  match contacts with
  | [] => Some (results, w)
  | c :: rest =>
      match process_contact fuel message_template image_url callback n index c results w with
      | None => None
      | Some (results, w) =>
          bulk_loop fuel message_template image_url callback n (S index) rest results w
      end
  end.

Definition send_bulk_messages (fuel : nat) (contacts : list Contact)
    (message_template : string) (image_url : option string)
    (callback : option Callback) (w : World)
  : option (Results * World) :=
  let results :=
    {| total := Z.of_nat (length contacts);
       successful := 0; failed := 0; failures := [] |} in
  bulk_loop fuel message_template image_url callback
    (length contacts) 0 contacts results w.

End Engine.

(** ** A model of [str.format] on plain templates *)

(** Plain templates are made of literal text, the doubled braces and
    replacement fields [{name}] whose name is a keyword.  On them
    [plain_format] follows [str.format], errors included, from left to
    right.  A replacement field that is positional (empty or numbered), or
    that has a conversion, a format specification, an attribute or an index,
    is outside the model, which then stops with [not_modelled]. *)
Definition ValueError (msg : string) : exn := OtherException "ValueError" msg.

Definition not_modelled (field : string) : exn := OtherException "NotModelled" field.

Definition is_decimal (c : ascii) : bool :=
  let n := N_of_ascii c in ((48 <=? n)%N && (n <=? 57)%N).

Fixpoint all_decimal (s : string) : bool :=
  match s with
  | EmptyString => true
  | String c s' => is_decimal c && all_decimal s'
  end.

Definition field_syntax (c : ascii) : bool :=
  bool_decide (c = "!"%char) || bool_decide (c = ":"%char)
  || bool_decide (c = "."%char) || bool_decide (c = "["%char).

(** [field] is [None] in literal text and [Some name] inside a replacement
    field of which [name] has been read; [out] is the text rendered so far. *)
Fixpoint format_go (c : Contact) (field : option string) (out : string) (s : string)
  : Result string :=
  match field with
  | None =>
      match s with
      | EmptyString => Return out
      | String ch s' =>
          if bool_decide (ch = "{"%char) then
            match s' with
            | EmptyString => Raise (ValueError "Single '{' encountered in format string")
            | String ch' s'' =>
                if bool_decide (ch' = "{"%char) then format_go c None (out +:+ "{") s''
                else format_go c (Some "") out s'
            end
          else if bool_decide (ch = "}"%char) then
            match s' with
            | EmptyString => Raise (ValueError "Single '}' encountered in format string")
            | String ch' s'' =>
                if bool_decide (ch' = "}"%char) then format_go c None (out +:+ "}") s''
                else Raise (ValueError "Single '}' encountered in format string")
            end
          else format_go c None (out +:+ String ch "") s'
      end
  | Some name =>
      match s with
      | EmptyString => Raise (ValueError "expected '}' before end of string")
      | String ch s' =>
          if bool_decide (ch = "}"%char) then
            if all_decimal name then Raise (not_modelled name)
            else match c !! name with
                 | None => Raise (KeyError name)
                 | Some v => format_go c None (out +:+ v) s'
                 end
          else if bool_decide (ch = "{"%char) then
            Raise (ValueError "unexpected '{' in field name")
          else if field_syntax ch then Raise (not_modelled (name +:+ String ch s'))
          else format_go c (Some (name +:+ String ch "")) out s'
      end
  end.

Definition plain_format (message_template : string) (c : Contact) : Result string :=
  format_go c None "" message_template.

Definition ann : Contact :=
  <["name" := "Ann"]> (<["phone_number" := "+14155552671"]> ∅).

Definition nameless : Contact := <["phone_number" := "+14155552672"]> ∅.

(** The configuration of the rate limiter example of the specification: a
    cap of 2 messages per window. *)
Definition cap_two : Config :=
  {| MAX_RETRIES := 3; RETRY_DELAY := 5; RATE_LIMIT := 2 |}.

(** ** Notions used in the statements *)

(** The window never starts in the future. *)
Definition wf (w : World) : Prop := (last_reset_time (self w) <= clock w)%Q.

(** What a wait that ends has done: [k] one-second sleeps and nothing else;
    the count is the old one or 0 and is below the cap. *)
Record waited (cfg : Config) (w w' : World) : Prop := {
  waited_trace : exists k : nat, trace w' = trace w ++ repeat EvThrottle k
                 /\ (message_count (self w) < RATE_LIMIT cfg -> k = 0%nat);
  waited_count : message_count (self w') = message_count (self w)
                 \/ message_count (self w') = 0;
  waited_below : message_count (self w') < RATE_LIMIT cfg;
  waited_wf : wf w -> wf w'
}.

(** An attempt that fails without having been answered with status 200: a
    response whose status is not 200, or a [requests.RequestException] raised
    by [requests.post].  (An answer with status 200 whose body does not
    decode fails as well, but only after it has been counted: see
    [answers_not_json].) *)
Definition failing (a : Attempt) : bool :=
  match a with
  | Response status_code _ => negb (status_code =? 200)
  | PostRaises (RequestException _) => true
  | PostRaises _ => false
  end.

(** The dictionary [send_message] returns when it gives up after the failed
    attempt [a]. *)
Definition failure_dict (phone_number : string) (a : Attempt) : Dict :=
  match a with
  | Response status_code _ => status_error phone_number status_code
  | PostRaises e => network_error phone_number (str_exn e)
  end.

(** The number of attempts of one [send_message] call that starts at
    [retry_count] and never succeeds. *)
Definition attempts (cfg : Config) (retry_count : Z) : nat :=
  S (Z.to_nat (MAX_RETRIES cfg - retry_count)).

(** Fuel that is enough for [send_message] from [retry_count] on. *)
Definition enough (cfg : Config) (retry_count : Z) (fuel : nat) : Prop :=
  (61 + Z.to_nat (MAX_RETRIES cfg - retry_count) <= fuel)%nat.

(** The error text of the failed attempt [a]. *)
Definition failure_msg (phone_number : string) (a : Attempt) : string :=
  match a with
  | Response status_code _ => status_error_msg phone_number status_code
  | PostRaises e => network_error_msg phone_number (str_exn e)
  end.

(** A contact that reaches [send_message]: the template renders and the
    contact has a phone number. *)
Definition sendable (format : string -> Contact -> Result string)
    (message_template : string) (c : Contact) : Prop :=
  (exists custom_message, format message_template c = Return custom_message)
  /\ is_Some (c !! "phone_number").

(** A callback that returns normally whatever it is given. *)
Definition quiet (callback : option Callback) : Prop :=
  match callback with
  | None => True
  | Some cb => forall progress results, cb progress results = None
  end.

(** ** Stubs for the examples *)

(** The body of an accepted message. *)
Definition accepted : Dict := <["messaging_product" := VStr "whatsapp"]> ∅.

Definition always_ok : Transport := fun _ _ => Response 200 (Return (VDict accepted)).


Definition always_500 : Transport := fun _ _ => Response 500 (Return (VDict ∅)).

Definition quiet_callback : Callback := fun _ _ => None.

Definition raising_callback : Callback :=
  fun _ _ => Some (OtherException "RuntimeError" "window closed").

(** The [results] dictionary before the first contact. *)
Definition fresh_results (n : nat) : Results :=
  {| total := Z.of_nat n; successful := 0; failed := 0; failures := [] |}.

(** ** Plain templates, piece by piece *)

(** A plain template read as literal text and replacement fields. *)
Inductive piece : Type :=
  | Lit (text : string)
  | Field (name : string).

Definition template_text (p : piece) : string :=
  match p with
  | Lit text => text
  | Field name => "{" +:+ name +:+ "}"
  end.

Fixpoint template_of (ps : list piece) : string :=
  match ps with
  | [] => ""
  | p :: ps' => template_text p +:+ template_of ps'
  end.

Definition is_brace (c : ascii) : bool :=
  bool_decide (c = "{"%char) || bool_decide (c = "}"%char).

Fixpoint none_of (p : ascii -> bool) (s : string) : bool :=
  match s with
  | EmptyString => true
  | String c s' => negb (p c) && none_of p s'
  end.

(** Literal text without braces; a field name that is a keyword. *)
Definition plain_piece (p : piece) : bool :=
  match p with
  | Lit text => none_of is_brace text
  | Field name =>
      none_of is_brace name && none_of field_syntax name && negb (all_decimal name)
  end.

(** What [str.format] makes of the pieces, from left to right. *)
Fixpoint render (c : Contact) (out : string) (ps : list piece) : Result string :=
  match ps with
  | [] => Return out
  | Lit text :: ps' => render c (out +:+ text) ps'
  | Field name :: ps' =>
      match c !! name with
      | None => Raise (KeyError name)
      | Some v => render c (out +:+ v) ps'
      end
  end.

(** ** Counting the answers *)

(** A request that was answered with status 200. *)
Definition is_ok_post (ev : Event) : bool :=
  match ev with
  | EvPost _ (Response status_code _) => status_code =? 200
  | _ => false
  end.

Definition ok_posts (t : list Event) : nat := length (List.filter is_ok_post t).

(** An attempt after which no exception leaves [send_message]: whatever is
    raised is a [requests.RequestException]. *)
Definition tame (a : Attempt) : bool :=
  match a with
  | Response _ (Return _) => true
  | Response _ (Raise (RequestException _)) => true
  | Response _ (Raise _) => false
  | PostRaises (RequestException _) => true
  | PostRaises _ => false
  end.

(** The count after some steps is at most the count before them (or 0, when
    a window has started in between) plus the requests answered with status
    200 in between. *)
Definition counted_by_ok_posts (w w' : World) : Prop :=
  (ok_posts (trace w) <= ok_posts (trace w'))%nat
  /\ message_count (self w')
     <= Z.max 0 (message_count (self w))
        + (Z.of_nat (ok_posts (trace w')) - Z.of_nat (ok_posts (trace w))).

(** Within a window the count is exact: the window of [w'] starts no
    earlier than that of [w], and while it is still the same window the
    count has grown by exactly the requests answered with status 200 in
    between. *)
Definition counted_in_window (w w' : World) : Prop :=
  (last_reset_time (self w) <= last_reset_time (self w'))%Q
  /\ (ok_posts (trace w) <= ok_posts (trace w'))%nat
  /\ ((last_reset_time (self w') == last_reset_time (self w))%Q ->
      message_count (self w')
      = message_count (self w)
        + (Z.of_nat (ok_posts (trace w')) - Z.of_nat (ok_posts (trace w)))).

(** ** Further notions *)

(** The payloads of the requests made so far, in order. *)
Fixpoint posted (t : list Event) : list Payload :=
  match t with
  | [] => []
  | EvPost payload _ :: t' => payload :: posted t'
  | _ :: t' => posted t'
  end.

Definition is_backoff (ev : Event) : bool :=
  match ev with EvBackoff => true | _ => false end.

(** The number of retry delays so far. *)
Definition backoffs (t : list Event) : nat := length (List.filter is_backoff t).


(** A transport that fails twice and then accepts. *)
Definition fails_twice : Transport :=
  fun n _ => if (n <? 2)%nat then Response 500 (Return (VDict ∅))
             else Response 200 (Return (VDict accepted)).


(** A payload made for a contact of the list: addressed to its phone number
    and built from its rendering of the template. *)
Definition from_contact (format : string -> Contact -> Result string)
    (message_template : string) (image_url : option string)
    (contacts : list Contact) (payload : Payload) : Prop :=
  exists (c : Contact) phone_number custom_message,
    In c contacts
    /\ c !! "phone_number" = Some phone_number
    /\ format message_template c = Return custom_message
    /\ payload = build_payload phone_number custom_message image_url.

Definition is_image_payload (url : string) (payload : Payload) : Prop :=
  exists to, payload = ImagePayload to url.

(** A transport that answers every request with status 200 and a body in
    which ["error" in response] is false (a dictionary without that key, or a
    list or string without it). *)
Definition accepts_all (transport : Transport) : Prop :=
  forall n p, exists v : Value,
    transport n p = Response 200 (Return v) /\ contains "error" v = Return false.

(** A body with an ["error"] entry, sent with status 200. *)
Definition error_body : Dict := <["error" := VStr "unsupported message"]> ∅.

Definition answers_error_body : Transport :=
  fun _ _ => Response 200 (Return (VDict error_body)).

(** A transport that answers every request with status 200 and a body that
    is not JSON: [response.json()] raises
    [requests.exceptions.JSONDecodeError], a [requests.RequestException]. *)
Definition answers_not_json : Transport :=
  fun _ _ =>
    Response 200 (Raise (RequestException "Expecting value: line 1 column 1 (char 0)")).

(** A transport that answers every request with status 200 and the JSON
    string ["error: rate limited"]. *)
Definition answers_error_text : Transport :=
  fun _ _ => Response 200 (Return (VStr "error: rate limited")).


(** ** The logger ([logger.py]) *)

(** The logging settings of [config.py]. *)
Definition LOG_FILE : string := "app.log".
Definition LOG_FORMAT : string := "%(asctime)s - %(levelname)s - %(message)s".

(** [getattr(logging, LOG_LEVEL)] for [LOG_LEVEL = "INFO"]. *)
Definition LOG_LEVEL_INFO : Z := 20.

(** The handlers [setup_logger] constructs, each with the format it is
    given.  Their constructors are taken to succeed. *)
Inductive Handler : Type :=
  | StreamHandler (stream fmt : string)
  | RotatingFileHandler (filename : string) (maxBytes backupCount : Z) (fmt : string)
  | QtHandler (fmt : string).

(** A [logging.Logger]: its level and its handlers, in the order they were
    added. *)
Record Logger : Type := {
  level : Z;
  handlers : list Handler
}.

(** The loggers created so far, by name. *)
Abbreviation Loggers := (gmap string Logger).

(** A logger as [logging.getLogger] creates it: level [NOTSET], no
    handlers. *)
Definition new_logger : Logger := {| level := 0; handlers := [] |}.

(** [logging.getLogger(name)]: the logger of that name, created on first
    use. *)
Definition getLogger (name : string) (loggers : Loggers) : Logger * Loggers :=
  match loggers !! name with
  | Some logger => (logger, loggers)
  | None => (new_logger, <[name := new_logger]> loggers)
  end.

Definition is_empty {A : Type} (l : list A) : bool :=
  match l with [] => true | _ => false end.

(** [setup_logger(name)]: the logger it returns and the loggers after the
    call. *)
Definition setup_logger (name : string) (loggers : Loggers) : Logger * Loggers :=
  let '(logger, loggers) := getLogger name loggers in
  let logger := {| level := LOG_LEVEL_INFO; handlers := handlers logger |} in
  if negb (is_empty (handlers logger)) then (logger, <[name := logger]> loggers)
  else
    let console_handler := StreamHandler "stdout" LOG_FORMAT in
    let logger := {| level := level logger;
                     handlers := handlers logger ++ [console_handler] |} in
    let file_handler := RotatingFileHandler LOG_FILE (1024 * 1024) 5 LOG_FORMAT in
    let logger := {| level := level logger;
                     handlers := handlers logger ++ [file_handler] |} in
    let qt_handler := QtHandler LOG_FORMAT in
    let logger := {| level := level logger;
                     handlers := handlers logger ++ [qt_handler] |} in
    (logger, <[name := logger]> loggers).

(** [isinstance(handler, QtHandler)] *)
Definition is_qt_handler (h : Handler) : bool :=
  match h with QtHandler _ => true | _ => false end.

(** The loop of [get_qt_handler]: the first Qt handler, if any. *)
Fixpoint first_qt_handler (hs : list Handler) : option Handler :=
  match hs with
  | [] => None
  | handler :: hs' => if is_qt_handler handler then Some handler else first_qt_handler hs'
  end.

(** [get_qt_handler()] *)
Definition get_qt_handler (loggers : Loggers) : option Handler * Loggers :=
  let '(logger, loggers) := getLogger "whatsapp_messenger" loggers in
  (first_qt_handler (handlers logger), loggers).

(** Loggers in which somebody else has configured [whatsapp_messenger]. *)
Definition preconfigured : Loggers :=
  <["whatsapp_messenger" :=
      {| level := 30; handlers := [StreamHandler "stderr" "%(message)s"] |}]> ∅.

(** ** Bodies that are not what the loop expects *)

(** A body on which the loop body does not count a failure twice: when
    ["error" in response] holds, [response["error"]] can be read (so the
    body is a dictionary, not a list or a string with ["error"] in it). *)
Definition error_readable (v : Value) : bool :=
  match contains "error" v with
  | Return true =>
      match getitem "error" v with
      | Return _ => true
      | Raise _ => false
      end
  | _ => true
  end.

(** A body on which the update of the results raises nothing: it is a
    dictionary, or a list or a string without ["error"] in it. *)
Definition updatable (v : Value) : bool :=
  match contains "error" v with
  | Raise _ => false
  | Return false => true
  | Return true =>
      match getitem "error" v with
      | Return _ => true
      | Raise _ => false
      end
  end.

(** Transports whose bodies of status 200 are all of that kind. *)
Definition answers_readable (transport : Transport) : Prop :=
  forall n p v, transport n p = Response 200 (Return v) -> error_readable v = true.

Definition answers_updatable (transport : Transport) : Prop :=
  forall n p v, transport n p = Response 200 (Return v) -> updatable v = true.

(** * Properties *)

(** ** The models of the Python built-ins on examples *)

Example pretty_example : pretty (404 : Z) = "404" /\ pretty (-5 : Z) = "-5".
Proof. split; reflexivity. Qed.

Example plain_format_ann : plain_format "Hi {name}, {{ok}}" ann = Return "Hi Ann, {ok}".
Proof. vm_compute. reflexivity. Qed.

Example plain_format_nameless : plain_format "Hi {name}" nameless = Raise (KeyError "name").
Proof. vm_compute. reflexivity. Qed.

Example repr_examples :
  repr "name" = "'name'"
  /\ repr "it's" = String double_quote ("it's" +:+ String double_quote EmptyString)
  /\ repr (String backslash "n") = "'" +:+ String backslash (String backslash "n'").
Proof. repeat split; vm_compute; reflexivity. Qed.

Example contains_examples :
  contains "error" (VDict error_body) = Return true
  /\ contains "error" (VDict accepted) = Return false
  /\ contains "error" (VStr "error: rate limited") = Return true
  /\ contains "error" (VList [VStr "warning"; VStr "error"]) = Return true
  /\ contains "error" (VList [VStr "error: rate limited"]) = Return false
  /\ contains "error" VNone
     = Raise (TypeError "argument of type 'NoneType' is not iterable")
  /\ contains "error" (VInt 7) = Raise (TypeError "argument of type 'int' is not iterable").
Proof. repeat split; vm_compute; reflexivity. Qed.

Example getitem_examples :
  getitem "error" (VDict error_body) = Return (VStr "unsupported message")
  /\ getitem "error" (VDict accepted) = Raise (KeyError "error")
  /\ getitem "error" (VStr "error: rate limited")
     = Raise (TypeError "string indices must be integers, not 'str'")
  /\ getitem "error" (VList [VStr "error"])
     = Raise (TypeError "list indices must be integers or slices, not str").
Proof. repeat split; vm_compute; reflexivity. Qed.

(** The percentages are floats: those of three contacts, and one that is not
    the quotient it stands for. *)
#[warnings="-inexact-float"]
Example progress_of_examples :
  progress_of 0 3 = 33.33333333333333%float
  /\ progress_of 1 3 = 66.66666666666666%float
  /\ progress_of 2 3 = 100%float
  /\ progress_of 28 100 = 28.999999999999996%float.
Proof. repeat split; vm_compute; reflexivity. Qed.

(** ** Plain templates *)

Lemma append_assoc (s1 s2 s3 : string) : (s1 +:+ s2) +:+ s3 = s1 +:+ (s2 +:+ s3).
Proof.
  induction s1 as [|c s1 IH]; [reflexivity|].
  change (String c ((s1 +:+ s2) +:+ s3) = String c (s1 +:+ (s2 +:+ s3))).
  rewrite IH. reflexivity.
Qed.

Lemma append_empty_r (s : string) : s +:+ "" = s.
Proof.
  induction s as [|c s IH]; [reflexivity|].
  change (String c (s +:+ "") = String c s). rewrite IH. reflexivity.
Qed.

Lemma append_char (out : string) (ch : ascii) (s : string) :
  (out +:+ String ch "") +:+ s = out +:+ String ch s.
Proof. rewrite append_assoc. reflexivity. Qed.

Lemma format_go_text (c : Contact) (text : string) : forall out s,
  none_of is_brace text = true ->
  format_go c None out (text +:+ s) = format_go c None (out +:+ text) s.
Proof.
  induction text as [|ch text IH]; intros out s Hplain.
  - simpl. rewrite append_empty_r. reflexivity.
  - simpl in Hplain. apply andb_prop in Hplain. destruct Hplain as [Hch Hrest].
    unfold is_brace in Hch. apply negb_true_iff, orb_false_elim in Hch.
    destruct Hch as [Hopen Hclose].
    change (String ch text +:+ s) with (String ch (text +:+ s)).
    cbn [format_go]. rewrite Hopen, Hclose. rewrite IH by exact Hrest.
    rewrite append_char. reflexivity.
Qed.

Lemma format_go_name (c : Contact) (name : string) : forall acc out s,
  none_of is_brace name = true -> none_of field_syntax name = true ->
  format_go c (Some acc) out (name +:+ String "}" s)
  = if all_decimal (acc +:+ name) then Raise (not_modelled (acc +:+ name))
    else match c !! (acc +:+ name) with
         | None => Raise (KeyError (acc +:+ name))
         | Some v => format_go c None (out +:+ v) s
         end.
Proof.
  induction name as [|ch name IH]; intros acc out s Hbrace Hsyntax.
  - simpl. rewrite append_empty_r. reflexivity.
  - simpl in Hbrace, Hsyntax.
    apply andb_prop in Hbrace. destruct Hbrace as [Hch Hbrace].
    apply andb_prop in Hsyntax. destruct Hsyntax as [Hsy Hsyntax].
    unfold is_brace in Hch. apply negb_true_iff, orb_false_elim in Hch.
    destruct Hch as [Hopen Hclose]. apply negb_true_iff in Hsy.
    change (String ch name +:+ String "}" s) with (String ch (name +:+ String "}" s)).
    cbn [format_go]. rewrite Hopen, Hclose, Hsy.
    rewrite IH by assumption. rewrite append_char. reflexivity.
Qed.

Lemma all_decimal_empty_false (name : string) :
  all_decimal name = false -> exists ch rest, name = String ch rest.
Proof. destruct name as [|ch rest]; [discriminate|eauto]. Qed.

(** On a plain template, [plain_format] is [render]. *)
Lemma format_go_pieces (c : Contact) (ps : list piece) : forall out,
  forallb plain_piece ps = true ->
  format_go c None out (template_of ps) = render c out ps.
Proof.
  induction ps as [|p ps IH]; intros out Hplain; [reflexivity|].
  simpl in Hplain. apply andb_prop in Hplain. destruct Hplain as [Hp Hps].
  destruct p as [text|name]; simpl in Hp.
  - cbn [template_of template_text render]. rewrite format_go_text by exact Hp.
    apply IH. exact Hps.
  - apply andb_prop in Hp. destruct Hp as [Hp Hdec].
    apply andb_prop in Hp. destruct Hp as [Hbrace Hsyntax].
    apply negb_true_iff in Hdec.
    cbn [template_of template_text render].
    change (("{" +:+ name +:+ "}") +:+ template_of ps)
      with (String "{" ((name +:+ "}") +:+ template_of ps)).
    rewrite append_assoc.
    change ("}" +:+ template_of ps) with (String "}" (template_of ps)).
    destruct (all_decimal_empty_false name Hdec) as (ch & rest & Hname).
    assert (Hfirst : bool_decide (ch = "{"%char) = false).
    { subst name. simpl in Hbrace. apply andb_prop in Hbrace. destruct Hbrace as [Hch _].
      unfold is_brace in Hch. apply negb_true_iff, orb_false_elim in Hch. tauto. }
    assert (Hgo : format_go c None out (String "{" (name +:+ String "}" (template_of ps)))
                  = format_go c (Some "") out (name +:+ String "}" (template_of ps))).
    { subst name.
      change (String ch rest +:+ String "}" (template_of ps))
        with (String ch (rest +:+ String "}" (template_of ps))).
      cbn [format_go]. rewrite bool_decide_eq_true_2 by reflexivity.
      rewrite Hfirst. reflexivity. }
    rewrite Hgo, format_go_name by assumption.
    change ("" +:+ name) with name. rewrite Hdec.
    destruct (c !! name); [apply IH; exact Hps | reflexivity].
Qed.

(** A contact without a field that a plain template names makes
    [plain_format] raise [KeyError], for the first such field. *)
Lemma plain_format_missing_field (c : Contact) (ps : list piece) (name : string) :
  forallb plain_piece ps = true ->
  In (Field name) ps -> c !! name = None ->
  exists key, plain_format (template_of ps) c = Raise (KeyError key)
              /\ In (Field key) ps /\ c !! key = None.
Proof.
  intros Hplain Hin Hmiss. unfold plain_format. rewrite format_go_pieces by exact Hplain.
  clear Hplain. generalize "" as out.
  induction ps as [|p ps IH]; intros out; [destruct Hin|].
  destruct p as [text|name']; simpl.
  - destruct Hin as [Heq|Hin]; [discriminate|].
    destruct (IH Hin (out +:+ text)) as (key & Hr & Hk & Hn). eauto.
  - destruct (c !! name') as [v|] eqn:Hlook.
    + destruct Hin as [Heq|Hin]; [congruence|].
      destruct (IH Hin (out +:+ v)) as (key & Hr & Hk & Hn). eauto.
    + eauto.
Qed.

Example plain_template_example :
  template_of [Lit "Hi "; Field "name"; Lit ", your code is "; Field "code"]
  = "Hi {name}, your code is {code}".
Proof. reflexivity. Qed.

(** ** The phone number helpers *)

Lemma join_filter_chars (p : ascii -> bool) (s : string) :
  list_ascii_of_string (join_filter p s) = List.filter p (list_ascii_of_string s).
Proof.
  induction s as [|ch s IH]; simpl; [reflexivity|].
  destruct (p ch); simpl; rewrite IH; reflexivity.
Qed.

Lemma join_filter_no_plus (s : string) :
  startswith_plus (join_filter isdigit s) = false.
Proof.
  induction s as [|ch s IH]; simpl; [reflexivity|].
  destruct (isdigit ch) eqn:Hd; [|exact IH].
  simpl. apply bool_decide_eq_false. intros ->. discriminate Hd.
Qed.

(** C8. For every string, [validate_phone_number] holds exactly when the
    string stripped of its non-digit characters has between 10 and 15
    characters, and [format_phone_number] is ["+"] followed by exactly the
    digit characters of the input, in their order; the three examples of the
    specification evaluate as it says. *)
Theorem phone_helpers_spec (s : string) :
  (validate_phone_number s = true <-> 10 <= len (join_filter isdigit s) <= 15)
  /\ list_ascii_of_string (join_filter isdigit s)
     = List.filter isdigit (list_ascii_of_string s)
  /\ format_phone_number s = "+" +:+ join_filter isdigit s
  /\ format_phone_number "123-456-7890" = "+1234567890"
  /\ validate_phone_number "12345" = false
  /\ validate_phone_number "+14155552671" = true.
Proof.
  assert (Hv : validate_phone_number s = true
               <-> 10 <= len (join_filter isdigit s) <= 15).
  { unfold validate_phone_number.
    destruct (Z.ltb_spec (len (join_filter isdigit s)) 10);
      destruct (Z.gtb_spec (len (join_filter isdigit s)) 15);
      simpl; split; intros; try discriminate; try reflexivity; lia. }
  split; [exact Hv|].
  split; [apply join_filter_chars|].
  split; [|repeat split; reflexivity].
  unfold format_phone_number. rewrite join_filter_no_plus. reflexivity.
Qed.

(** ** The rate limiter *)

Lemma check_within cfg (t : Q) (api : WhatsAppAPI) :
  (t - last_reset_time api < 60)%Q ->
  _check_rate_limit cfg t api = (negb (message_count api >=? RATE_LIMIT cfg), api).
Proof.
  intros Hlt. unfold _check_rate_limit.
  destruct (Qle_bool 60 (t - last_reset_time api)) eqn:Hle.
  - apply Qle_bool_iff in Hle. lra.
  - destruct (message_count api >=? RATE_LIMIT cfg); reflexivity.
Qed.

Lemma check_elapsed cfg (t : Q) (api : WhatsAppAPI) :
  (60 <= t - last_reset_time api)%Q ->
  _check_rate_limit cfg t api
  = (negb (0 >=? RATE_LIMIT cfg), {| message_count := 0; last_reset_time := t |}).
Proof.
  intros Hle. unfold _check_rate_limit.
  apply Qle_bool_iff in Hle. rewrite Hle. simpl.
  destruct (0 >=? RATE_LIMIT cfg); reflexivity.
Qed.

(** C5, as the specification states it: three checks in a row within one
    window, with a cap of 2.  The check does not count, so the third one
    passes as well. *)
Lemma check_rate_limit_thrice :
  let api0 := {| message_count := 0; last_reset_time := 0 |} in
  let '(b1, api1) := _check_rate_limit cap_two 10 api0 in
  let '(b2, api2) := _check_rate_limit cap_two 20 api1 in
  let '(b3, api3) := _check_rate_limit cap_two 30 api2 in
  (b1, b2, b3) = (true, true, true) /\ (b1, b2, b3) <> (true, true, false).
Proof. vm_compute. split; [reflexivity | discriminate]. Qed.

(** C5, amended.  With a cap of 2, in a window that starts at [t0]: a check
    passes while fewer than two sends were counted (a send is counted by
    [send_message] when the status is 200, never by the check) and fails
    once two were; all of these leave the window as it is.  A check at 60
    seconds or more after [t0] sets the count to 0, starts the window at the
    time of the check and passes. *)
Theorem check_rate_limit_cap_two cfg (t0 t1 t2 t3 t4 : Q) :
  RATE_LIMIT cfg = 2 ->
  (t1 - t0 < 60)%Q -> (t2 - t0 < 60)%Q -> (t3 - t0 < 60)%Q -> (60 <= t4 - t0)%Q ->
  let api0 := {| message_count := 0; last_reset_time := t0 |} in
  let api1 := counted api0 in
  let api2 := counted api1 in
  _check_rate_limit cfg t1 api0 = (true, api0)
  /\ _check_rate_limit cfg t2 api1 = (true, api1)
  /\ _check_rate_limit cfg t3 api2 = (false, api2)
  /\ _check_rate_limit cfg t4 api2
     = (true, {| message_count := 0; last_reset_time := t4 |}).
Proof.
  intros Hcap H1 H2 H3 H4 api0 api1 api2.
  rewrite (check_within cfg t1 api0), (check_within cfg t2 api1),
    (check_within cfg t3 api2), (check_elapsed cfg t4 api2) by assumption.
  rewrite Hcap. repeat split.
Qed.

Lemma check_rate_limit_cap_two_witness :
  _check_rate_limit cap_two 59 (counted (counted {| message_count := 0; last_reset_time := 0 |}))
  = (false, counted (counted {| message_count := 0; last_reset_time := 0 |}))
  /\ _check_rate_limit cap_two 60 (counted (counted {| message_count := 0; last_reset_time := 0 |}))
     = (true, {| message_count := 0; last_reset_time := 60 |}).
Proof.
  assert (H1 : (10 - 0 < 60)%Q) by reflexivity.
  assert (H2 : (20 - 0 < 60)%Q) by reflexivity.
  assert (H3 : (59 - 0 < 60)%Q) by reflexivity.
  assert (H4 : (60 <= 60 - 0)%Q) by (vm_compute; discriminate).
  destruct (check_rate_limit_cap_two cap_two 0 10 20 59 60 eq_refl H1 H2 H3 H4)
    as (_ & _ & H5 & H6).
  split; [exact H5 | exact H6].
Defined.

(** ** Waiting for the rate limiter *)

Lemma wf_init (now : Q) : wf (init now).
Proof. unfold wf, init; simpl. lra. Qed.

Lemma posts_app (t1 t2 : list Event) : posts (t1 ++ t2) = (posts t1 + posts t2)%nat.
Proof. unfold posts. rewrite List.filter_app, length_app. reflexivity. Qed.

Lemma throttles_app (t1 t2 : list Event) :
  throttles (t1 ++ t2) = (throttles t1 + throttles t2)%nat.
Proof. unfold throttles. rewrite List.filter_app, length_app. reflexivity. Qed.

Lemma progress_calls_app (t1 t2 : list Event) :
  progress_calls (t1 ++ t2) = progress_calls t1 ++ progress_calls t2.
Proof.
  induction t1 as [|ev t1 IH]; simpl; [reflexivity|].
  destruct ev; simpl; rewrite ?IH; reflexivity.
Qed.

Section Waiting.

Variable cfg : Config.
Hypothesis cap_positive : 0 < RATE_LIMIT cfg.

Lemma check_cases (t : Q) (api : WhatsAppAPI) :
  let '(ok, api') := _check_rate_limit cfg t api in
  (api' = api /\ (t - last_reset_time api < 60)%Q
   \/ api' = {| message_count := 0; last_reset_time := t |}
      /\ (60 <= t - last_reset_time api)%Q /\ ok = true)
  /\ (ok = true <-> message_count api' < RATE_LIMIT cfg).
Proof.
  destruct (Qlt_le_dec (t - last_reset_time api) 60) as [Hlt|Hle].
  - rewrite check_within by exact Hlt. split; [left; auto|].
    destruct (Z.geb_spec (message_count api) (RATE_LIMIT cfg)); simpl;
      split; intros; try discriminate; try reflexivity; lia.
  - rewrite check_elapsed by exact Hle.
    destruct (Z.geb_spec 0 (RATE_LIMIT cfg)); [lia|]. simpl.
    split; [right; auto|]. split; intros; [lia|reflexivity].
Qed.

Lemma wait_spec (fuel : nat) (w w' : World) :
  _wait_for_rate_limit cfg fuel w = Some w' -> waited cfg w w'.
Proof.
  revert w. induction fuel as [|fuel IH]; intros w; simpl; [discriminate|].
  pose proof (check_cases (clock w) (self w)) as Hc.
  destruct (_check_rate_limit cfg (clock w) (self w)) as [ok api].
  destruct Hc as [Hapi Hok]. destruct ok.
  - intros [= <-]. split; simpl.
    + exists 0%nat. simpl. rewrite app_nil_r. auto.
    + destruct Hapi as [[-> _]|(-> & _)]; auto.
    + apply Hok; reflexivity.
    + unfold wf; simpl. destruct Hapi as [[-> _]|(-> & _)]; simpl; [auto|lra].
  - intros Hrec. apply IH in Hrec. destruct Hrec as [[k [Ht Hk]] Hcount Hbelow Hwf].
    simpl in *.
    assert (Hsame : api = self w /\ (clock w - last_reset_time (self w) < 60)%Q).
    { destruct Hapi as [[-> ?]|(_ & _ & ?)]; [auto|discriminate]. }
    destruct Hsame as [-> Hin].
    assert (Hfull : ~ message_count (self w) < RATE_LIMIT cfg).
    { intros Hlt. apply Hok in Hlt. discriminate. }
    split.
    + exists (S k). split; [|intros; contradiction].
      rewrite Ht, <- app_assoc. reflexivity.
    + exact Hcount.
    + exact Hbelow.
    + intros Hw. apply Hwf. unfold wf in *; simpl.
      assert (inject_Z 1 == 1)%Q by reflexivity. lra.
Qed.

(** A wait ends within 61 checks. *)
Lemma wait_returns_aux (fuel : nat) (w : World) :
  (1 <= fuel)%nat ->
  (60 - (clock w - last_reset_time (self w)) <= inject_Z (Z.of_nat fuel) - 1)%Q ->
  exists w', _wait_for_rate_limit cfg fuel w = Some w'.
Proof.
  revert w. induction fuel as [|fuel IH]; intros w Hpos Hfuel; [lia|]. simpl.
  pose proof (check_cases (clock w) (self w)) as Hc.
  destruct (_check_rate_limit cfg (clock w) (self w)) as [ok api].
  destruct Hc as [Hapi Hok]. destruct ok; [eauto|].
  assert (Hsame : api = self w /\ (clock w - last_reset_time (self w) < 60)%Q).
  { destruct Hapi as [[-> ?]|(_ & _ & ?)]; [auto|discriminate]. }
  destruct Hsame as [-> Hin].
  assert (Hs : (inject_Z (Z.of_nat (S fuel)) == inject_Z (Z.of_nat fuel) + 1)%Q).
  { rewrite Nat2Z.inj_succ. unfold Z.succ. rewrite inject_Z_plus. reflexivity. }
  assert (H1 : (inject_Z 1 == 1)%Q) by reflexivity.
  rewrite Hs in Hfuel. apply IH.
  - destruct fuel; [|lia]. exfalso.
    change (inject_Z (Z.of_nat 0)) with 0%Q in Hfuel. lra.
  - simpl. lra.
Qed.

Lemma wait_returns (fuel : nat) (w : World) :
  wf w -> (61 <= fuel)%nat ->
  exists w', _wait_for_rate_limit cfg fuel w = Some w' /\ waited cfg w w'.
Proof.
  intros Hw Hfuel.
  destruct (wait_returns_aux fuel w) as [w' Hw']; [lia| |].
  - assert (H61 : (61 <= inject_Z (Z.of_nat fuel))%Q).
    { change 61%Q with (inject_Z 61). rewrite <- Zle_Qle. lia. }
    unfold wf in Hw. lra.
  - exists w'. split; [exact Hw'|]. eapply wait_spec; exact Hw'.
Qed.

End Waiting.

(** ** [send_message] *)

Lemma posts_repeat_throttle (k : nat) : posts (repeat EvThrottle k) = 0%nat.
Proof. induction k; simpl; auto. Qed.

Lemma throttles_repeat_throttle (k : nat) : throttles (repeat EvThrottle k) = k.
Proof. induction k; simpl; auto. unfold throttles in *. simpl. lia. Qed.

Lemma progress_calls_repeat_throttle (k : nat) :
  progress_calls (repeat EvThrottle k) = [].
Proof. induction k; simpl; auto. Qed.

Lemma waited_posts cfg (w w' : World) :
  waited cfg w w' -> posts (trace w') = posts (trace w).
Proof.
  intros [[k [-> _]] _ _ _]. rewrite posts_app, posts_repeat_throttle. lia.
Qed.

Lemma waited_progress cfg (w w' : World) :
  waited cfg w w' -> progress_calls (trace w') = progress_calls (trace w).
Proof.
  intros [[k [-> _]] _ _ _].
  rewrite progress_calls_app, progress_calls_repeat_throttle, app_nil_r. reflexivity.
Qed.

Lemma waited_throttles cfg (w w' : World) :
  waited cfg w w' -> message_count (self w) < RATE_LIMIT cfg ->
  throttles (trace w') = throttles (trace w).
Proof.
  intros [[k [-> Hk]] _ _ _] Hlt. rewrite (Hk Hlt). simpl. rewrite app_nil_r. reflexivity.
Qed.

Lemma wf_sleep (seconds : Z) (ev : Event) (w : World) :
  0 <= seconds -> wf w -> wf (sleep seconds ev w).
Proof.
  unfold wf; simpl. intros Hs Hw.
  assert (0 <= inject_Z seconds)%Q by (change 0%Q with (inject_Z 0); rewrite <- Zle_Qle; lia).
  lra.
Qed.

Section Sending.

Variable cfg : Config.
Variable transport : Transport.
Hypothesis cap_positive : 0 < RATE_LIMIT cfg.

Lemma send_message_unfold fuel phone_number message image_url retry_count w :
  send_message cfg transport (S fuel) phone_number message image_url retry_count w
  = match _wait_for_rate_limit cfg (S fuel) w with
    | None => None
    | Some w =>
        let payload := build_payload phone_number message image_url in
        let answer := transport (posts (trace w)) payload in
        let w := emit (EvPost payload answer) w in
        let retry_or (final : Value) (w : World) :=
          if retry_count <? MAX_RETRIES cfg then
            if RETRY_DELAY cfg <? 0 then Some (Raise sleep_error, w)
            else send_message cfg transport fuel phone_number message image_url
                   (retry_count + 1) (sleep (RETRY_DELAY cfg) EvBackoff w)
          else Some (Return final, w) in
        match answer with
        | Response status_code json =>
            if status_code =? 200 then
              let w := count_message w in
              match json with
              | Return d => Some (Return d, w)
              | Raise (RequestException msg) =>
                  retry_or (VDict (network_error phone_number msg)) w
              | Raise e => Some (Raise e, w)
              end
            else retry_or (VDict (status_error phone_number status_code)) w
        | PostRaises (RequestException msg) =>
            retry_or (VDict (network_error phone_number msg)) w
        | PostRaises e => Some (Raise e, w)
        end
    end.
Proof. reflexivity. Qed.

(** [send_message] returns, whatever the transport does; it never calls
    the progress callback and makes at least one request. *)
Lemma send_message_returns fuel phone_number message image_url retry_count w :
  wf w -> enough cfg retry_count fuel ->
  exists res w',
    send_message cfg transport fuel phone_number message image_url retry_count w
    = Some (res, w')
    /\ wf w'
    /\ progress_calls (trace w') = progress_calls (trace w)
    /\ (posts (trace w) < posts (trace w'))%nat.
Proof.
  revert retry_count w.
  induction fuel as [|fuel IH]; intros retry_count w Hw Hfuel;
    [unfold enough in Hfuel; lia|].
  rewrite send_message_unfold.
  destruct (wait_returns cfg cap_positive (S fuel) w Hw) as (w1 & -> & Hwait);
    [unfold enough in Hfuel; lia|].
  pose proof (waited_posts _ _ _ Hwait) as Hposts.
  pose proof (waited_progress _ _ _ Hwait) as Hprog.
  pose proof (waited_wf _ _ _ Hwait Hw) as Hw1.
  cbv zeta.
  set (payload := build_payload phone_number message image_url).
  set (answer := transport (posts (trace w1)) payload).
  assert (Hdone : forall (res : Result Value) (w2 : World),
    wf w2 -> progress_calls (trace w2) = progress_calls (trace w1) ->
    (posts (trace w1) < posts (trace w2))%nat ->
    exists res' w', Some (res, w2) = Some (res', w') /\ wf w'
      /\ progress_calls (trace w') = progress_calls (trace w)
      /\ (posts (trace w) < posts (trace w'))%nat).
  { intros res w2 H1 H2 H3. exists res, w2. rewrite H2, Hprog. repeat split; auto. lia. }
  assert (Hretry : forall final (w2 : World),
    wf w2 -> progress_calls (trace w2) = progress_calls (trace w1) ->
    (posts (trace w1) < posts (trace w2))%nat ->
    exists res' w',
      (if retry_count <? MAX_RETRIES cfg then
         if RETRY_DELAY cfg <? 0 then Some (Raise sleep_error, w2)
         else send_message cfg transport fuel phone_number message image_url
                (retry_count + 1) (sleep (RETRY_DELAY cfg) EvBackoff w2)
       else Some (Return final, w2)) = Some (res', w') /\ wf w'
      /\ progress_calls (trace w') = progress_calls (trace w)
      /\ (posts (trace w) < posts (trace w'))%nat).
  { intros final w2 H1 H2 H3.
    destruct (Z.ltb_spec retry_count (MAX_RETRIES cfg)) as [Hlt|Hge]; [|auto].
    destruct (Z.ltb_spec (RETRY_DELAY cfg) 0) as [Hneg|Hpos]; [auto|].
    destruct (IH (retry_count + 1) (sleep (RETRY_DELAY cfg) EvBackoff w2))
      as (res' & w' & -> & Hw' & Hp' & Hn').
    - apply wf_sleep; assumption.
    - unfold enough in *. lia.
    - exists res', w'. split; [reflexivity|]. split; [exact Hw'|].
      simpl in Hp', Hn'. rewrite progress_calls_app in Hp'. simpl in Hp'.
      rewrite app_nil_r in Hp'. rewrite posts_app in Hn'. simpl in Hn'.
      rewrite Hp', H2, Hprog. split; [reflexivity|]. lia. }
  assert (Hemit : forall (w2 : World) ev, is_post ev = true -> w2 = emit ev w1 ->
    wf w2 /\ wf (count_message w2)
    /\ progress_calls (trace w2) = progress_calls (trace w1)
    /\ (posts (trace w1) < posts (trace w2))%nat).
  { intros w2 ev Hev ->. unfold wf; simpl.
    rewrite progress_calls_app, posts_app. destruct ev; try discriminate.
    simpl. rewrite app_nil_r. repeat split; auto. unfold posts; simpl. lia. }
  destruct (Hemit _ (EvPost payload answer) eq_refl eq_refl)
    as (He1 & He2 & He3 & He4).
  destruct answer as [status_code json|e].
  - destruct (status_code =? 200).
    + destruct json as [d|[key|msg|cls msg]].
      * apply Hdone; auto.
      * apply Hdone; auto.
      * apply Hretry; auto.
      * apply Hdone; auto.
    + apply Hretry; auto.
  - destruct e as [key|msg|cls msg].
    + apply Hdone; auto.
    + apply Hretry; auto.
    + apply Hdone; auto.
Qed.

End Sending.

Section AllFail.

Variable cfg : Config.
Variable transport : Transport.
Hypothesis cap_positive : 0 < RATE_LIMIT cfg.
Hypothesis delay_nonneg : 0 <= RETRY_DELAY cfg.
Hypothesis all_fail : forall n p, failing (transport n p) = true.

(** When every attempt fails, [send_message] makes all its attempts,
    returns the error of the last one, never counts a message and, when
    the count was below the cap, never waits for the rate limiter. *)
Lemma send_message_all_fail fuel phone_number message image_url retry_count w :
  wf w -> enough cfg retry_count fuel ->
  exists w',
    send_message cfg transport fuel phone_number message image_url retry_count w
    = Some (Return (VDict (failure_dict phone_number
                      (transport (posts (trace w)
                                  + Z.to_nat (MAX_RETRIES cfg - retry_count))%nat
                         (build_payload phone_number message image_url)))), w')
    /\ wf w'
    /\ posts (trace w') = (posts (trace w) + attempts cfg retry_count)%nat
    /\ progress_calls (trace w') = progress_calls (trace w)
    /\ (message_count (self w') = message_count (self w)
        \/ message_count (self w') = 0)
    /\ (message_count (self w) < RATE_LIMIT cfg ->
        throttles (trace w') = throttles (trace w)
        /\ message_count (self w') < RATE_LIMIT cfg).
Proof.
  revert retry_count w.
  induction fuel as [|fuel IH]; intros retry_count w Hw Hfuel;
    [unfold enough in Hfuel; lia|].
  rewrite send_message_unfold.
  destruct (wait_returns cfg cap_positive (S fuel) w Hw) as (w1 & -> & Hwait);
    [unfold enough in Hfuel; lia|].
  pose proof (waited_posts _ _ _ Hwait) as Hposts.
  pose proof (waited_progress _ _ _ Hwait) as Hprog.
  pose proof (waited_wf _ _ _ Hwait Hw) as Hw1.
  pose proof (waited_count _ _ _ Hwait) as Hcount.
  pose proof (waited_below _ _ _ Hwait) as Hbelow.
  pose proof (waited_throttles _ _ _ Hwait) as Hthr.
  cbv zeta. rewrite Hposts.
  set (payload := build_payload phone_number message image_url).
  set (w2 := emit (EvPost payload (transport (posts (trace w)) payload)) w1).
  assert (Hw2 : wf w2) by exact Hw1.
  assert (Hp2 : posts (trace w2) = S (posts (trace w))).
  { unfold w2; simpl. rewrite posts_app, Hposts. simpl. unfold posts at 2. simpl. lia. }
  assert (Hg2 : progress_calls (trace w2) = progress_calls (trace w)).
  { unfold w2; simpl. rewrite progress_calls_app, Hprog. simpl. apply app_nil_r. }
  assert (Ht2 : throttles (trace w2) = throttles (trace w1)).
  { unfold w2; simpl. rewrite throttles_app. simpl. unfold throttles at 2. simpl. lia. }
  (* the shared failure path *)
  assert (Hretry : forall final : Value,
    final = VDict (failure_dict phone_number (transport (posts (trace w)) payload)) ->
    exists w',
      (if retry_count <? MAX_RETRIES cfg then
         if RETRY_DELAY cfg <? 0 then Some (Raise sleep_error, w2)
         else send_message cfg transport fuel phone_number message image_url
                (retry_count + 1) (sleep (RETRY_DELAY cfg) EvBackoff w2)
       else Some (Return final, w2))
      = Some (Return (VDict (failure_dict phone_number
                        (transport (posts (trace w)
                                    + Z.to_nat (MAX_RETRIES cfg - retry_count))%nat
                           payload))), w')
      /\ wf w'
      /\ posts (trace w') = (posts (trace w) + attempts cfg retry_count)%nat
      /\ progress_calls (trace w') = progress_calls (trace w)
      /\ (message_count (self w') = message_count (self w)
          \/ message_count (self w') = 0)
      /\ (message_count (self w) < RATE_LIMIT cfg ->
          throttles (trace w') = throttles (trace w)
          /\ message_count (self w') < RATE_LIMIT cfg)).
  { intros final ->. unfold attempts.
    destruct (Z.ltb_spec retry_count (MAX_RETRIES cfg)) as [Hlt|Hge].
    - destruct (Z.ltb_spec (RETRY_DELAY cfg) 0) as [Hneg|_]; [lia|].
      set (w3 := sleep (RETRY_DELAY cfg) EvBackoff w2).
      destruct (IH (retry_count + 1) w3) as (w' & -> & Hw' & Hp' & Hg' & Hc' & Ht').
      + apply wf_sleep; assumption.
      + unfold enough in *. lia.
      + assert (Hp3 : posts (trace w3) = S (posts (trace w))).
        { change (trace w3) with (trace w2 ++ [EvBackoff]).
          rewrite posts_app, Hp2. change (posts [EvBackoff]) with 0%nat. lia. }
        assert (Hg3 : progress_calls (trace w3) = progress_calls (trace w)).
        { change (trace w3) with (trace w2 ++ [EvBackoff]).
          rewrite progress_calls_app, Hg2. simpl. apply app_nil_r. }
        assert (Ht3 : throttles (trace w3) = throttles (trace w1)).
        { change (trace w3) with (trace w2 ++ [EvBackoff]).
          rewrite throttles_app, Ht2. change (throttles [EvBackoff]) with 0%nat. lia. }
        exists w'. rewrite Hp3 in *. unfold attempts in Hp'.
        replace (S (posts (trace w)) + Z.to_nat (MAX_RETRIES cfg - (retry_count + 1)))%nat
          with (posts (trace w) + Z.to_nat (MAX_RETRIES cfg - retry_count))%nat by lia.
        split; [reflexivity|]. split; [exact Hw'|].
        split; [lia|]. split; [congruence|].
        change (message_count (self w3)) with (message_count (self w1)) in *.
        split.
        * destruct Hc' as [Hc'|Hc']; [|auto]. rewrite Hc'. exact Hcount.
        * intros Hlt'. destruct (Ht' Hbelow) as [Ht'' Hb'']. split; [|exact Hb''].
          rewrite Ht'', Ht3. apply Hthr. exact Hlt'.
    - exists w2.
      replace (Z.to_nat (MAX_RETRIES cfg - retry_count)) with 0%nat by lia.
      rewrite Nat.add_0_r. split; [reflexivity|]. split; [exact Hw2|].
      split; [lia|]. split; [exact Hg2|].
      change (message_count (self w2)) with (message_count (self w1)).
      split; [exact Hcount|]. intros Hlt'. split; [|exact Hbelow].
      rewrite Ht2. apply Hthr. exact Hlt'. }
  pose proof (all_fail (posts (trace w)) payload) as Hfail.
  fold w2.
  destruct (transport (posts (trace w)) payload) as [status_code json|e] eqn:Hans;
    simpl in Hfail.
  - destruct (status_code =? 200); [discriminate|]. apply Hretry. reflexivity.
  - destruct e as [key|msg|cls msg]; try discriminate. apply Hretry. reflexivity.
Qed.

End AllFail.

(** ** What the message count counts *)

Lemma ok_posts_app (t1 t2 : list Event) :
  ok_posts (t1 ++ t2) = (ok_posts t1 + ok_posts t2)%nat.
Proof. unfold ok_posts. rewrite List.filter_app, length_app. reflexivity. Qed.

Lemma ok_posts_repeat_throttle (k : nat) : ok_posts (repeat EvThrottle k) = 0%nat.
Proof. induction k; simpl; auto. Qed.

Lemma waited_ok_posts cfg (w w' : World) :
  waited cfg w w' -> ok_posts (trace w') = ok_posts (trace w).
Proof.
  intros [[k [-> _]] _ _ _]. rewrite ok_posts_app, ok_posts_repeat_throttle. lia.
Qed.

Lemma counted_refl (w : World) : counted_by_ok_posts w w.
Proof. unfold counted_by_ok_posts. lia. Qed.

Lemma counted_trans (w1 w2 w3 : World) :
  counted_by_ok_posts w1 w2 -> counted_by_ok_posts w2 w3 -> counted_by_ok_posts w1 w3.
Proof. unfold counted_by_ok_posts. lia. Qed.

Lemma counted_waited cfg (w w' : World) : waited cfg w w' -> counted_by_ok_posts w w'.
Proof.
  intros Hwait. pose proof (waited_ok_posts _ _ _ Hwait) as Hok.
  destruct (waited_count _ _ _ Hwait); unfold counted_by_ok_posts; lia.
Qed.

Lemma ok_posts_one (ev : Event) :
  ok_posts [ev] = if is_ok_post ev then 1%nat else 0%nat.
Proof. unfold ok_posts. cbn [List.filter]. destruct (is_ok_post ev); reflexivity. Qed.

Lemma counted_silent (ev : Event) (w : World) :
  is_ok_post ev = false -> counted_by_ok_posts w (emit ev w).
Proof.
  intros Hev. unfold counted_by_ok_posts.
  change (trace (emit ev w)) with (trace w ++ [ev]).
  change (self (emit ev w)) with (self w).
  rewrite ok_posts_app, ok_posts_one, Hev. lia.
Qed.

Lemma counted_sleep (seconds : Z) (w : World) :
  counted_by_ok_posts w (sleep seconds EvBackoff w).
Proof.
  unfold counted_by_ok_posts.
  change (trace (sleep seconds EvBackoff w)) with (trace w ++ [EvBackoff]).
  change (self (sleep seconds EvBackoff w)) with (self w).
  rewrite ok_posts_app. change (ok_posts [EvBackoff]) with 0%nat. lia.
Qed.

Lemma counted_ok (ev : Event) (w : World) :
  is_ok_post ev = true -> counted_by_ok_posts w (count_message (emit ev w)).
Proof.
  intros Hev. unfold counted_by_ok_posts.
  change (trace (count_message (emit ev w))) with (trace w ++ [ev]).
  change (message_count (self (count_message (emit ev w))))
    with (message_count (self w) + 1).
  rewrite ok_posts_app, ok_posts_one, Hev. lia.
Qed.

(** The same for the exact count within a window. *)
Lemma window_refl (w : World) : counted_in_window w w.
Proof. unfold counted_in_window. split; [lra|]. split; intros; lia. Qed.

Lemma window_trans (w1 w2 w3 : World) :
  counted_in_window w1 w2 -> counted_in_window w2 w3 -> counted_in_window w1 w3.
Proof.
  intros (Hl1 & Ho1 & He1) (Hl2 & Ho2 & He2). split; [lra|]. split; [lia|].
  intros Heq. rewrite He2, He1 by lra. lia.
Qed.

Lemma window_silent (ev : Event) (w : World) :
  is_ok_post ev = false -> counted_in_window w (emit ev w).
Proof.
  intros Hev. unfold counted_in_window.
  change (trace (emit ev w)) with (trace w ++ [ev]).
  change (self (emit ev w)) with (self w).
  rewrite ok_posts_app, ok_posts_one, Hev. split; [lra|]. split; intros; lia.
Qed.

Lemma window_sleep (seconds : Z) (ev : Event) (w : World) :
  is_ok_post ev = false -> counted_in_window w (sleep seconds ev w).
Proof.
  intros Hev. unfold counted_in_window.
  change (trace (sleep seconds ev w)) with (trace w ++ [ev]).
  change (self (sleep seconds ev w)) with (self w).
  rewrite ok_posts_app, ok_posts_one, Hev. split; [lra|]. split; intros; lia.
Qed.

Lemma window_ok (ev : Event) (w : World) :
  is_ok_post ev = true -> counted_in_window w (count_message (emit ev w)).
Proof.
  intros Hev. unfold counted_in_window.
  change (trace (count_message (emit ev w))) with (trace w ++ [ev]).
  change (message_count (self (count_message (emit ev w))))
    with (message_count (self w) + 1).
  change (last_reset_time (self (count_message (emit ev w))))
    with (last_reset_time (self w)).
  rewrite ok_posts_app, ok_posts_one, Hev. split; [lra|]. split; intros; lia.
Qed.

(** A check keeps the object, or starts a window at least 60 seconds after
    the old one, with the count at 0. *)
Lemma check_window cfg (t : Q) (api : WhatsAppAPI) :
  snd (_check_rate_limit cfg t api) = api
  \/ (snd (_check_rate_limit cfg t api) = {| message_count := 0; last_reset_time := t |}
      /\ (60 <= t - last_reset_time api)%Q).
Proof.
  unfold _check_rate_limit.
  destruct (Qle_bool 60 (t - last_reset_time api)) eqn:Hle.
  - right. apply Qle_bool_iff in Hle.
    destruct (_ >=? _); simpl; auto.
  - left. destruct (_ >=? _); reflexivity.
Qed.

(** A wait that ends keeps the object, or has started a window at least 60
    seconds after the old one, with the count at 0. *)
Lemma wait_self cfg (fuel : nat) : forall (w w' : World),
  _wait_for_rate_limit cfg fuel w = Some w' ->
  self w' = self w
  \/ (message_count (self w') = 0
      /\ (60 <= last_reset_time (self w') - last_reset_time (self w))%Q).
Proof.
  induction fuel as [|fuel IH]; intros w w'; simpl; [discriminate|].
  pose proof (check_window cfg (clock w) (self w)) as Hc.
  destruct (_check_rate_limit cfg (clock w) (self w)) as [ok api]. simpl in Hc.
  assert (Hapi : api = self w
                 \/ (message_count api = 0
                     /\ (60 <= last_reset_time api - last_reset_time (self w))%Q)).
  { destruct Hc as [->|[-> Hle]]; [left; reflexivity|right; simpl; auto]. }
  destruct ok.
  - intros [= <-]. simpl. destruct Hapi as [->|Hreset]; auto.
  - intros Hrec. apply IH in Hrec. simpl in Hrec.
    destruct Hrec as [->|[H0 Hle]]; [exact Hapi|].
    right. split; [exact H0|].
    destruct Hapi as [->|[_ Hle1]]; [exact Hle|lra].
Qed.

Lemma wait_window cfg (fuel : nat) (w w' : World) :
  _wait_for_rate_limit cfg fuel w = Some w' -> counted_in_window w w'.
Proof.
  intros Hwait. pose proof (wait_self cfg fuel w w' Hwait) as Hself.
  assert (Hok : ok_posts (trace w') = ok_posts (trace w)).
  { clear Hself. revert w w' Hwait.
    induction fuel as [|fuel IH]; intros w w'; simpl; [discriminate|].
    destruct (_check_rate_limit cfg (clock w) (self w)) as [[|] api].
    - intros [= <-]. reflexivity.
    - intros Hrec. apply IH in Hrec. rewrite Hrec.
      change (trace (sleep 1 EvThrottle (set_self api w))) with (trace w ++ [EvThrottle]).
      rewrite ok_posts_app. change (ok_posts [EvThrottle]) with 0%nat. lia. }
  unfold counted_in_window. rewrite Hok.
  destruct Hself as [->|[H0 Hle]].
  - split; [lra|]. split; intros; lia.
  - split; [lra|]. split; [lia|]. intros Heq. lra.
Qed.

(** What holds step by step holds for [send_message] and for the loop: a
    relation between worlds that is kept by the waits, the sleeps, the
    requests (with the count that follows an answer with status 200) and the
    progress reports. *)
Section Stepwise.

Variable cfg : Config.
Variable transport : Transport.
Variable R : World -> World -> Prop.
Hypothesis R_refl : forall w, R w w.
Hypothesis R_trans : forall w1 w2 w3, R w1 w2 -> R w2 w3 -> R w1 w3.
Hypothesis R_wait : forall fuel w w', _wait_for_rate_limit cfg fuel w = Some w' -> R w w'.
Hypothesis R_silent : forall ev w, is_ok_post ev = false -> R w (emit ev w).
Hypothesis R_sleep : forall seconds w, R w (sleep seconds EvBackoff w).
Hypothesis R_ok : forall ev w, is_ok_post ev = true -> R w (count_message (emit ev w)).

Lemma send_message_stepwise fuel phone_number message image_url :
  forall retry_count w res w',
  send_message cfg transport fuel phone_number message image_url retry_count w
  = Some (res, w') ->
  R w w'.
Proof.
  induction fuel as [|fuel IH]; intros retry_count w res w'; [discriminate|].
  rewrite send_message_unfold.
  destruct (_wait_for_rate_limit cfg (S fuel) w) as [w1|] eqn:Hwait; [|discriminate].
  apply R_wait in Hwait.
  cbv zeta.
  set (payload := build_payload phone_number message image_url).
  set (answer := transport (posts (trace w1)) payload).
  assert (Hretry : forall (final : Value) (w2 : World),
    R w w2 ->
    (if retry_count <? MAX_RETRIES cfg then
       if RETRY_DELAY cfg <? 0 then Some (Raise sleep_error, w2)
       else send_message cfg transport fuel phone_number message image_url
              (retry_count + 1) (sleep (RETRY_DELAY cfg) EvBackoff w2)
     else Some (Return final, w2)) = Some (res, w') ->
    R w w').
  { intros final w2 H2.
    destruct (retry_count <? MAX_RETRIES cfg); [|intros [= _ <-]; exact H2].
    destruct (RETRY_DELAY cfg <? 0); [intros [= _ <-]; exact H2|].
    intros Hrec. apply IH in Hrec.
    eapply R_trans; [exact H2|]. eapply R_trans; [|exact Hrec].
    apply R_sleep. }
  destruct answer as [status_code json|e] eqn:Hanswer.
  - destruct (status_code =? 200) eqn:Hstatus.
    + assert (H2 : R w (count_message
                          (emit (EvPost payload (Response status_code json)) w1))).
      { eapply R_trans; [exact Hwait|]. apply R_ok. exact Hstatus. }
      destruct json as [d|[key|msg|cls msg]]; try (intros [= _ <-]; exact H2).
      apply Hretry. exact H2.
    + apply Hretry. eapply R_trans; [exact Hwait|]. apply R_silent.
      exact Hstatus.
  - assert (H2 : R w (emit (EvPost payload (PostRaises e)) w1)).
    { eapply R_trans; [exact Hwait|]. apply R_silent. reflexivity. }
    destruct e as [key|msg|cls msg]; try (intros [= _ <-]; exact H2).
    apply Hretry. exact H2.
Qed.

Variable format : string -> Contact -> Result string.

Lemma process_contact_stepwise fuel message_template image_url callback
    n index c results w results' w' :
  process_contact cfg format transport fuel message_template image_url callback
    n index c results w = Some (results', w') ->
  R w w'.
Proof.
  unfold process_contact.
  destruct (format message_template c) as [custom_message|e];
    [|intros [= _ <-]; apply R_refl].
  destruct (c !! "phone_number") as [phone_number|];
    [|intros [= _ <-]; apply R_refl].
  destruct (send_message _ _ _ _ _ _ _ _) as [[res w1]|] eqn:Hsend; [|discriminate].
  apply send_message_stepwise in Hsend.
  destruct res as [response|e]; [|intros [= _ <-]; exact Hsend].
  destruct (update_results c response results) as [r1|[e r1]];
    [|intros [= _ <-]; exact Hsend].
  destruct callback as [cb|]; [|intros [= _ <-]; exact Hsend].
  destruct (cb _ _); intros [= _ <-];
    (eapply R_trans; [exact Hsend|]; apply R_silent; reflexivity).
Qed.

Lemma bulk_loop_stepwise fuel message_template image_url callback n contacts :
  forall index results w results' w',
  bulk_loop cfg format transport fuel message_template image_url callback
    n index contacts results w = Some (results', w') ->
  R w w'.
Proof.
  induction contacts as [|c rest IH]; intros index results w results' w'; simpl.
  - intros [= _ <-]. apply R_refl.
  - destruct (process_contact _ _ _ _ _ _ _ _ _ _ _ _) as [[r1 w1]|] eqn:Hstep;
      [|discriminate].
    intros Hloop. apply process_contact_stepwise in Hstep. apply IH in Hloop.
    eapply R_trans; eassumption.
Qed.

End Stepwise.

Section Counting.

Variable cfg : Config.
Variable transport : Transport.
Hypothesis cap_positive : 0 < RATE_LIMIT cfg.

Lemma send_message_counted fuel phone_number message image_url :
  forall retry_count w res w',
  send_message cfg transport fuel phone_number message image_url retry_count w
  = Some (res, w') ->
  counted_by_ok_posts w w'.
Proof.
  apply send_message_stepwise;
    auto using counted_refl, counted_silent, counted_sleep, counted_ok.
  - apply counted_trans.
  - intros f w w' Hwait. eapply counted_waited, (wait_spec cfg cap_positive), Hwait.
Qed.

Variable format : string -> Contact -> Result string.

Lemma bulk_loop_counted fuel message_template image_url callback n contacts :
  forall index results w results' w',
  bulk_loop cfg format transport fuel message_template image_url callback
    n index contacts results w = Some (results', w') ->
  counted_by_ok_posts w w'.
Proof.
  apply bulk_loop_stepwise;
    auto using counted_refl, counted_silent, counted_sleep, counted_ok.
  - apply counted_trans.
  - intros f w w' Hwait. eapply counted_waited, (wait_spec cfg cap_positive), Hwait.
Qed.

Lemma send_message_window fuel phone_number message image_url :
  forall retry_count w res w',
  send_message cfg transport fuel phone_number message image_url retry_count w
  = Some (res, w') ->
  counted_in_window w w'.
Proof.
  apply send_message_stepwise;
    auto using window_refl, window_silent, window_ok.
  - apply window_trans.
  - apply wait_window.
  - intros seconds w. apply window_sleep. reflexivity.
Qed.

Lemma bulk_loop_window fuel message_template image_url callback n contacts :
  forall index results w results' w',
  bulk_loop cfg format transport fuel message_template image_url callback
    n index contacts results w = Some (results', w') ->
  counted_in_window w w'.
Proof.
  apply bulk_loop_stepwise;
    auto using window_refl, window_silent, window_ok.
  - apply window_trans.
  - apply wait_window.
  - intros seconds w. apply window_sleep. reflexivity.
Qed.

End Counting.

(** ** [send_bulk_messages] *)

Lemma failure_dict_error (phone_number : string) (a : Attempt) :
  failure_dict phone_number a !! "error" = Some (VStr (failure_msg phone_number a)).
Proof. destruct a; reflexivity. Qed.

(** On a dictionary the update is the test of the ["error"] key. *)
Lemma update_results_dict (c : Contact) (d : Dict) (results : Results) :
  update_results c (VDict d) results
  = inl match d !! "error" with
        | Some err => record_failure c err results
        | None => record_success results
        end.
Proof.
  unfold update_results, contains, getitem.
  destruct (d !! "error") as [err|] eqn:Hd.
  - rewrite bool_decide_eq_true_2 by eauto. reflexivity.
  - rewrite bool_decide_eq_false_2 by (intros [x Hx]; discriminate). reflexivity.
Qed.

(** What the update does to the results: it counts the contact once when it
    returns; when it raises, nothing is counted yet, or (for a body that is
    not [error_readable]) one failure is counted without an entry. *)
Lemma update_results_spec (c : Contact) (response : Value) (results : Results) :
  match update_results c response results with
  | inl r =>
      updatable response = true
      /\ total r = total results
      /\ successful r + failed r = successful results + failed results + 1
      /\ successful results <= successful r
      /\ Z.of_nat (length (failures r)) - failed r
         = Z.of_nat (length (failures results)) - failed results
      /\ exists more, failures r = failures results ++ more
                      /\ (contact <$> more) `sublist_of` [c]
  | inr (e, r) =>
      updatable response = false
      /\ (r = results /\ error_readable response = true
          \/ r = count_failed results /\ error_readable response = false)
  end.
Proof.
  unfold update_results, updatable, error_readable.
  destruct (contains "error" response) as [[|]|e].
  - destruct (getitem "error" response) as [err|e]; simpl.
    + rewrite length_app. simpl. repeat split; try lia.
      exists [ {| contact := c; error := err |} ]. split; reflexivity.
    + split; [reflexivity|]. right. split; reflexivity.
  - simpl. repeat split; try lia. exists []. rewrite app_nil_r.
    split; [reflexivity|]. apply sublist_nil_l.
  - split; [reflexivity|]. left. split; reflexivity.
Qed.

Section Origin.

Variable cfg : Config.
Variable transport : Transport.

(** What [send_message] returns is a body the transport sent with status
    200, or a dictionary with an ["error"] text. *)
Lemma send_message_result_origin fuel phone_number message image_url :
  forall retry_count w (v : Value) w',
  send_message cfg transport fuel phone_number message image_url retry_count w
  = Some (Return v, w') ->
  (exists n p, transport n p = Response 200 (Return v))
  \/ (exists (d : Dict) text, v = VDict d /\ d !! "error" = Some (VStr text)).
Proof.
  induction fuel as [|fuel IH]; intros retry_count w v w'; [discriminate|].
  cbn [send_message].
  destruct (_wait_for_rate_limit cfg (S fuel) w) as [w1|]; [|discriminate].
  cbv zeta.
  set (payload := build_payload phone_number message image_url).
  assert (Hretry : forall (d : Dict) text (w2 : World),
    d !! "error" = Some (VStr text) ->
    (if retry_count <? MAX_RETRIES cfg then
       if RETRY_DELAY cfg <? 0 then Some (Raise sleep_error, w2)
       else send_message cfg transport fuel phone_number message image_url
              (retry_count + 1) (sleep (RETRY_DELAY cfg) EvBackoff w2)
     else Some (Return (VDict d), w2)) = Some (Return v, w') ->
    (exists n p, transport n p = Response 200 (Return v))
    \/ (exists (d : Dict) text, v = VDict d /\ d !! "error" = Some (VStr text))).
  { intros d text w2 Hd.
    destruct (retry_count <? MAX_RETRIES cfg); [|intros [= <- _]; right; eauto].
    destruct (RETRY_DELAY cfg <? 0); [discriminate|]. apply IH. }
  destruct (transport (posts (trace w1)) payload) as [status_code json|e] eqn:Hanswer.
  - destruct (Z.eqb_spec status_code 200) as [->|Hne].
    + destruct json as [d|[key|msg|cls msg]]; try discriminate.
      * intros [= <- _]. left. eauto.
      * eapply Hretry. reflexivity.
    + eapply Hretry. reflexivity.
  - destruct e as [key|msg|cls msg]; try discriminate. eapply Hretry. reflexivity.
Qed.

Lemma send_message_result_readable fuel phone_number message image_url
    retry_count w (v : Value) w' :
  answers_readable transport ->
  send_message cfg transport fuel phone_number message image_url retry_count w
  = Some (Return v, w') ->
  error_readable v = true.
Proof.
  intros Hread Hsend. apply send_message_result_origin in Hsend.
  destruct Hsend as [(n & p & Hanswer)|(d & text & -> & Hd)].
  - eapply Hread. exact Hanswer.
  - unfold error_readable, contains, getitem. rewrite Hd.
    rewrite bool_decide_eq_true_2 by eauto. reflexivity.
Qed.

Lemma send_message_result_updatable fuel phone_number message image_url
    retry_count w (v : Value) w' :
  answers_updatable transport ->
  send_message cfg transport fuel phone_number message image_url retry_count w
  = Some (Return v, w') ->
  updatable v = true.
Proof.
  intros Hupd Hsend. apply send_message_result_origin in Hsend.
  destruct Hsend as [(n & p & Hanswer)|(d & text & -> & Hd)].
  - eapply Hupd. exact Hanswer.
  - unfold updatable, contains, getitem. rewrite Hd.
    rewrite bool_decide_eq_true_2 by eauto. reflexivity.
Qed.

End Origin.

Section Bulk.

Variable cfg : Config.
Variable format : string -> Contact -> Result string.
Variable transport : Transport.
Hypothesis cap_positive : 0 < RATE_LIMIT cfg.

Variable fuel : nat.
Variable message_template : string.
Variable image_url : option string.
Variable callback : option Callback.
Hypothesis fuel_enough : enough cfg 0 fuel.

Local Abbreviation step :=
  (process_contact cfg format transport fuel message_template image_url callback).
Local Abbreviation loop :=
  (bulk_loop cfg format transport fuel message_template image_url callback).

Lemma bulk_loop_cons n index c rest results w :
  loop n index (c :: rest) results w
  = match step n index c results w with
    | None => None
    | Some (results, w) => loop n (S index) rest results w
    end.
Proof. reflexivity. Qed.

(** One turn of the loop returns; it keeps [total], adds one or two to
    [successful + failed] (one when the callback is quiet and the bodies are
    readable) and at most as many entries to [failures] as it adds to
    [failed]. *)
Lemma process_contact_returns n index c results w :
  wf w ->
  exists results' w',
    step n index c results w = Some (results', w')
    /\ wf w'
    /\ total results' = total results
    /\ successful results + failed results + 1
       <= successful results' + failed results'
       <= successful results + failed results + 2
    /\ (quiet callback -> answers_readable transport ->
        successful results' + failed results'
        = successful results + failed results + 1)
    /\ successful results <= successful results'
    /\ Z.of_nat (length (failures results')) - failed results'
       <= Z.of_nat (length (failures results)) - failed results.
Proof.
  intros Hw. unfold process_contact.
  (* the [except] branch, from results in which nothing, or the contact once,
     has been counted *)
  assert (Hexc : forall e (r : Results) (w1 : World),
    wf w1 ->
    r = results
    \/ ((quiet callback -> answers_readable transport -> False)
        /\ total r = total results
        /\ successful r + failed r = successful results + failed results + 1
        /\ successful results <= successful r
        /\ Z.of_nat (length (failures r)) - failed r
           <= Z.of_nat (length (failures results)) - failed results) ->
    exists results' w',
      Some (on_exception c e r, w1) = Some (results', w')
      /\ wf w'
      /\ total results' = total results
      /\ successful results + failed results + 1
         <= successful results' + failed results'
         <= successful results + failed results + 2
      /\ (quiet callback -> answers_readable transport ->
          successful results' + failed results'
          = successful results + failed results + 1)
      /\ successful results <= successful results'
      /\ Z.of_nat (length (failures results')) - failed results'
         <= Z.of_nat (length (failures results)) - failed results).
  { intros e r w1 Hw1 Hr. exists (on_exception c e r), w1.
    split; [reflexivity|]. split; [exact Hw1|].
    unfold on_exception, record_failure; simpl. rewrite length_app; simpl.
    destruct Hr as [->|(Hq & Ht & Hs & Hm & Hl)].
    - repeat split; try lia.
    - repeat split; try lia. intros Hq1 Hq2. destruct (Hq Hq1 Hq2). }
  destruct (format message_template c) as [custom_message|e]; [|apply Hexc; auto].
  destruct (c !! "phone_number") as [phone_number|]; [|apply Hexc; auto].
  destruct (send_message_returns cfg transport cap_positive fuel phone_number
              custom_message image_url 0 w Hw fuel_enough)
    as (res & w1 & Hsend & Hw1 & _ & _).
  rewrite Hsend.
  destruct res as [response|e]; [|apply Hexc; auto].
  pose proof (update_results_spec c response results) as Hupd.
  destruct (update_results c response results) as [r1|[e r1]].
  - destruct Hupd as (_ & Ht1 & Hs1 & Hm1 & Hl1 & _).
    assert (Hret : forall w2 : World, wf w2 ->
      exists results' w',
        Some (r1, w2) = Some (results', w')
        /\ wf w'
        /\ total results' = total results
        /\ successful results + failed results + 1
           <= successful results' + failed results'
           <= successful results + failed results + 2
        /\ (quiet callback -> answers_readable transport ->
            successful results' + failed results'
            = successful results + failed results + 1)
        /\ successful results <= successful results'
        /\ Z.of_nat (length (failures results')) - failed results'
           <= Z.of_nat (length (failures results)) - failed results).
    { intros w2 Hw2. exists r1, w2. repeat split; auto; lia. }
    destruct callback as [cb|] eqn:Hcb; [|apply Hret; exact Hw1].
    destruct (cb (progress_of index n) r1) as [e|] eqn:Hraise.
    + apply Hexc; [exact Hw1|]. right. split; [|repeat split; auto; lia].
      intros Hq _. simpl in Hq. rewrite Hq in Hraise. discriminate.
    + apply Hret. exact Hw1.
  - destruct Hupd as (_ & [[-> _]|[-> Hbad]]); [apply Hexc; auto|].
    apply Hexc; [exact Hw1|]. right. split; [|simpl; repeat split; lia].
    intros _ Hread.
    rewrite (send_message_result_readable cfg transport _ _ _ _ _ _ _ _ Hread Hsend)
      in Hbad. discriminate.
Qed.

(** The loop returns, with the same bounds for each of its contacts. *)
Lemma bulk_loop_returns n contacts : forall index results w,
  wf w ->
  exists results' w',
    loop n index contacts results w = Some (results', w')
    /\ wf w'
    /\ total results' = total results
    /\ successful results + failed results + Z.of_nat (length contacts)
       <= successful results' + failed results'
       <= successful results + failed results + 2 * Z.of_nat (length contacts)
    /\ (quiet callback -> answers_readable transport ->
        successful results' + failed results'
        = successful results + failed results + Z.of_nat (length contacts))
    /\ successful results <= successful results'
    /\ Z.of_nat (length (failures results')) - failed results'
       <= Z.of_nat (length (failures results)) - failed results.
Proof.
  induction contacts as [|c rest IH]; intros index results w Hw.
  - exists results, w. simpl. repeat split; auto; lia.
  - rewrite bulk_loop_cons.
    destruct (process_contact_returns n index c results w Hw)
      as (r1 & w1 & -> & Hw1 & Ht1 & Hs1 & Hq1 & Hm1 & Hl1).
    destruct (IH (S index) r1 w1 Hw1)
      as (r2 & w2 & -> & Hw2 & Ht2 & Hs2 & Hq2 & Hm2 & Hl2).
    change (length (c :: rest)) with (S (length rest)).
    exists r2, w2. split; [reflexivity|]. split; [exact Hw2|].
    split; [congruence|]. split; [lia|]. split; [|split; lia].
    intros Hq Hread. specialize (Hq1 Hq Hread). specialize (Hq2 Hq Hread). lia.
Qed.

(** With readable bodies every failure that is counted has its entry. *)
Lemma process_contact_entries n index c results w results' w' :
  answers_readable transport ->
  step n index c results w = Some (results', w') ->
  Z.of_nat (length (failures results')) - failed results'
  = Z.of_nat (length (failures results)) - failed results.
Proof.
  intros Hread. unfold process_contact, on_exception.
  destruct (format message_template c) as [custom_message|e].
  2:{ intros [= <- _]. simpl. rewrite length_app. simpl. lia. }
  destruct (c !! "phone_number") as [phone_number|].
  2:{ intros [= <- _]. simpl. rewrite length_app. simpl. lia. }
  destruct (send_message _ _ _ _ _ _ _ _) as [[[response|e] w1]|] eqn:Hsend;
    [| |discriminate].
  2:{ intros [= <- _]. simpl. rewrite length_app. simpl. lia. }
  pose proof (send_message_result_readable cfg transport _ _ _ _ _ _ _ _ Hread Hsend)
    as Hok.
  pose proof (update_results_spec c response results) as Hupd.
  destruct (update_results c response results) as [r1|[e r1]].
  - destruct Hupd as (_ & _ & _ & _ & Hl1 & _).
    destruct callback as [cb|]; [|intros [= <- _]; exact Hl1].
    destruct (cb _ _); intros [= <- _]; [|exact Hl1].
    simpl. rewrite length_app. simpl. lia.
  - destruct Hupd as (_ & [[-> _]|[_ Hbad]]); [|congruence].
    intros [= <- _]. simpl. rewrite length_app. simpl. lia.
Qed.

Lemma bulk_loop_entries n contacts : forall index results w results' w',
  answers_readable transport ->
  loop n index contacts results w = Some (results', w') ->
  Z.of_nat (length (failures results')) - failed results'
  = Z.of_nat (length (failures results)) - failed results.
Proof.
  induction contacts as [|c rest IH]; intros index results w results' w' Hread.
  - intros [= <- _]. reflexivity.
  - rewrite bulk_loop_cons.
    destruct (step n index c results w) as [[r1 w1]|] eqn:Hstep; [|discriminate].
    intros Hloop. apply (process_contact_entries _ _ _ _ _ _ _ Hread) in Hstep.
    apply (IH _ _ _ _ _ Hread) in Hloop. lia.
Qed.

(** When the callback is absent or quiet and the bodies are readable, the
    counts of the result add up to the number of contacts. *)
Lemma send_bulk_messages_counts contacts w :
  wf w -> quiet callback -> answers_readable transport ->
  exists results w',
    send_bulk_messages cfg format transport fuel contacts message_template
      image_url callback w = Some (results, w')
    /\ total results = Z.of_nat (length contacts)
    /\ successful results + failed results = total results
    /\ Z.of_nat (length (failures results)) = failed results.
Proof.
  intros Hw Hq Hread. unfold send_bulk_messages.
  destruct (bulk_loop_returns (length contacts) contacts 0
              {| total := Z.of_nat (length contacts); successful := 0;
                 failed := 0; failures := [] |} w Hw)
    as (r & w' & Hrun & _ & Ht & _ & Hs & _ & _).
  rewrite Hrun. exists r, w'.
  apply (bulk_loop_entries _ _ _ _ _ _ _ Hread) in Hrun.
  simpl in *. specialize (Hs Hq Hread). repeat split; auto; lia.
Qed.

End Bulk.

(** ** Progress reports *)

Section Reporting.

Variable cfg : Config.
Variable format : string -> Contact -> Result string.
Variable transport : Transport.
Hypothesis cap_positive : 0 < RATE_LIMIT cfg.
Hypothesis delay_nonneg : 0 <= RETRY_DELAY cfg.
Hypothesis all_tame : forall n p, tame (transport n p) = true.
Hypothesis all_updatable : answers_updatable transport.

Lemma send_message_no_raise fuel phone_number message image_url :
  forall retry_count w res w',
  send_message cfg transport fuel phone_number message image_url retry_count w
  = Some (res, w') ->
  exists v, res = Return v.
Proof.
  induction fuel as [|fuel IH]; intros retry_count w res w'; [discriminate|].
  rewrite send_message_unfold.
  destruct (_wait_for_rate_limit cfg (S fuel) w) as [w1|]; [|discriminate].
  cbv zeta.
  set (payload := build_payload phone_number message image_url).
  pose proof (all_tame (posts (trace w1)) payload) as Htame.
  assert (Hretry : forall (final : Value) (w2 : World),
    (if retry_count <? MAX_RETRIES cfg then
       if RETRY_DELAY cfg <? 0 then Some (Raise sleep_error, w2)
       else send_message cfg transport fuel phone_number message image_url
              (retry_count + 1) (sleep (RETRY_DELAY cfg) EvBackoff w2)
     else Some (Return final, w2)) = Some (res, w') ->
    exists v, res = Return v).
  { intros final w2.
    destruct (retry_count <? MAX_RETRIES cfg); [|intros [= <- _]; eauto].
    destruct (Z.ltb_spec (RETRY_DELAY cfg) 0); [lia|]. apply IH. }
  destruct (transport (posts (trace w1)) payload) as [status_code json|e];
    simpl in Htame.
  - destruct (status_code =? 200); [|apply Hretry].
    destruct json as [d|[key|msg|cls msg]]; try discriminate.
    + intros [= <- _]. eauto.
    + apply Hretry.
  - destruct e as [key|msg|cls msg]; try discriminate. apply Hretry.
Qed.

Variable fuel : nat.
Variable message_template : string.
Variable image_url : option string.
Variable cb : Callback.
Hypothesis fuel_enough : enough cfg 0 fuel.
Hypothesis cb_quiet : forall progress results, cb progress results = None.

Local Abbreviation step :=
  (process_contact cfg format transport fuel message_template image_url (Some cb)).
Local Abbreviation loop :=
  (bulk_loop cfg format transport fuel message_template image_url (Some cb)).

(** The turn of a contact that reaches [send_message] ends with one call of
    the callback, which sees the results with this contact counted. *)
Lemma process_contact_reports n index c results w :
  sendable format message_template c -> wf w ->
  exists results' w',
    step n index c results w = Some (results', w')
    /\ wf w'
    /\ progress_calls (trace w')
       = progress_calls (trace w) ++ [(progress_of index n, results')]
    /\ total results' = total results
    /\ successful results' + failed results'
       = successful results + failed results + 1.
Proof.
  intros [[custom_message Hfmt] [phone_number Hphone]] Hw.
  unfold process_contact. rewrite Hfmt, Hphone.
  destruct (send_message_returns cfg transport cap_positive fuel phone_number
              custom_message image_url 0 w Hw fuel_enough)
    as (res & w1 & Hsend & Hw1 & Hprog & _).
  destruct (send_message_no_raise _ _ _ _ _ _ _ _ Hsend) as [response ->].
  rewrite Hsend.
  pose proof (send_message_result_updatable cfg transport _ _ _ _ _ _ _ _
                all_updatable Hsend) as Hok.
  pose proof (update_results_spec c response results) as Hupd.
  destruct (update_results c response results) as [r1|[e r1]].
  - destruct Hupd as (_ & Ht1 & Hs1 & _).
    rewrite cb_quiet. exists r1, (emit (EvProgress (progress_of index n) r1) w1).
    split; [reflexivity|]. split; [exact Hw1|].
    change (trace (emit (EvProgress (progress_of index n) r1) w1))
      with (trace w1 ++ [EvProgress (progress_of index n) r1]).
    rewrite progress_calls_app, Hprog. split; [reflexivity|]. split; assumption.
  - destruct Hupd as [Hbad _]. congruence.
Qed.

Lemma bulk_loop_reports n contacts : forall index results w,
  Forall (sendable format message_template) contacts -> wf w ->
  exists results' w' calls,
    loop n index contacts results w = Some (results', w')
    /\ progress_calls (trace w') = progress_calls (trace w) ++ calls
    /\ length calls = length contacts
    /\ forall i progress snapshot,
         calls !! i = Some (progress, snapshot) ->
         progress = progress_of (index + i) n
         /\ total snapshot = total results
         /\ successful snapshot + failed snapshot
            = successful results + failed results + Z.of_nat i + 1.
Proof.
  induction contacts as [|c rest IH]; intros index results w Hall Hw.
  - exists results, w, []. simpl. rewrite app_nil_r.
    do 3 (split; [reflexivity|]).
    intros i p s Hi. rewrite lookup_nil in Hi. discriminate.
  - inversion Hall as [|? ? Hc Hrest]; subst.
    change (loop n index (c :: rest) results w)
      with (match step n index c results w with
            | None => None
            | Some (results, w) => loop n (S index) rest results w
            end).
    destruct (process_contact_reports n index c results w Hc Hw)
      as (r1 & w1 & -> & Hw1 & Hp1 & Ht1 & Hs1).
    destruct (IH (S index) r1 w1 Hrest Hw1) as (r2 & w2 & calls & -> & Hp2 & Hl2 & Hc2).
    exists r2, w2, ((progress_of index n, r1) :: calls).
    split; [reflexivity|]. split; [rewrite Hp2, Hp1, <- app_assoc; reflexivity|].
    split; [simpl; lia|].
    intros [|i] progress snapshot Hi.
    + injection Hi as <- <-. rewrite Nat.add_0_r. repeat split; auto. lia.
    + simpl in Hi. destruct (Hc2 i progress snapshot Hi) as (-> & Ht & Hs).
      replace (index + S i)%nat with (S index + i)%nat by lia.
      split; [reflexivity|]. split; [congruence|]. lia.
Qed.

(** When every contact reaches [send_message], no exception leaves it, the
    bodies are updatable and the callback returns, the callback is called
    once per contact, in the order of the list, with the percentage of that
    contact and results in which exactly the contacts up to it are counted. *)
Lemma send_bulk_messages_reports contacts w :
  Forall (sendable format message_template) contacts -> wf w ->
  exists results w' calls,
    send_bulk_messages cfg format transport fuel contacts message_template
      image_url (Some cb) w = Some (results, w')
    /\ progress_calls (trace w') = progress_calls (trace w) ++ calls
    /\ length calls = length contacts
    /\ forall i progress snapshot,
         calls !! i = Some (progress, snapshot) ->
         progress = progress_of i (length contacts)
         /\ total snapshot = Z.of_nat (length contacts)
         /\ successful snapshot + failed snapshot = Z.of_nat i + 1.
Proof.
  intros Hall Hw. unfold send_bulk_messages.
  destruct (bulk_loop_reports (length contacts) contacts 0
              {| total := Z.of_nat (length contacts); successful := 0; failed := 0;
                 failures := [] |} w Hall Hw)
    as (r & w' & calls & -> & Hp & Hl & Hc).
  exists r, w', calls. split; [reflexivity|]. split; [exact Hp|]. split; [exact Hl|].
  intros i progress snapshot Hi. destruct (Hc i progress snapshot Hi) as (-> & Ht & Hs).
  simpl in Ht, Hs. repeat split; auto.
Qed.

End Reporting.

(** ** The claims on [send_message] *)

(** C2, as the specification states it: with the configuration of
    [config.py] (3 retries) and a transport that always answers 500,
    [send_message] gives up with the error of the last attempt, but it has
    called the transport 4 times, not 3. *)
Lemma always_failing_transport_called_four_times :
  exists w',
    send_message config always_500 64 "+14155552671" "Hi Ann" None 0 (init 0)
    = Some (Return (VDict (status_error "+14155552671" 500)), w')
    /\ posts (trace w') = 4%nat
    /\ posts (trace w') <> 3%nat.
Proof. eexists. split; [vm_compute; reflexivity|]. split; [reflexivity|discriminate]. Qed.

(** C2, amended.  With a maximum of 3 retries and a transport that fails on
    every attempt, [send_message] returns the error dictionary of its last
    attempt after exactly 4 calls of the transport (the first attempt and 3
    retries), and [send_bulk_messages] then records the contact as failed
    with that error. *)
Theorem failing_transport_exhausts_retries
    cfg format (transport : Transport) fuel message_template image_url
    (c : Contact) phone_number custom_message n index results w :
  MAX_RETRIES cfg = 3 -> 0 < RATE_LIMIT cfg -> 0 <= RETRY_DELAY cfg ->
  (forall k p, failing (transport k p) = true) ->
  wf w -> (64 <= fuel)%nat ->
  format message_template c = Return custom_message ->
  c !! "phone_number" = Some phone_number ->
  let last := transport (posts (trace w) + 3)%nat
                (build_payload phone_number custom_message image_url) in
  exists w',
    send_message cfg transport fuel phone_number custom_message image_url 0 w
    = Some (Return (VDict (failure_dict phone_number last)), w')
    /\ posts (trace w') = (posts (trace w) + 4)%nat
    /\ process_contact cfg format transport fuel message_template image_url None
         n index c results w
       = Some (record_failure c (VStr (failure_msg phone_number last)) results, w').
Proof.
  intros Hmax Hcap Hdelay Hfail Hw Hfuel Hfmt Hphone last.
  destruct (send_message_all_fail cfg transport Hcap Hdelay Hfail fuel phone_number
              custom_message image_url 0 w Hw) as (w' & Hsend & _ & Hposts & _).
  { unfold enough. rewrite Hmax. simpl. lia. }
  unfold attempts in Hposts. rewrite Hmax in Hsend, Hposts. simpl in Hsend, Hposts.
  exists w'. split; [exact Hsend|]. split; [lia|].
  unfold process_contact. rewrite Hfmt, Hphone, Hsend.
  fold last. rewrite update_results_dict, failure_dict_error. reflexivity.
Qed.

Lemma failing_transport_exhausts_retries_witness :
  exists w',
    send_message config always_500 64 "+14155552671" "Hi Ann" None 0 (init 0)
    = Some (Return (VDict (failure_dict "+14155552671"
                             (Response 500 (Return (VDict ∅))))), w')
    /\ posts (trace w') = 4%nat.
Proof.
  destruct (failing_transport_exhausts_retries config plain_format always_500 64
              "Hi {name}" None ann "+14155552671" "Hi Ann" 1%nat 0%nat
              {| total := 1; successful := 0; failed := 0; failures := [] |} (init 0))
    as (w' & Hsend & Hposts & _).
  - reflexivity.
  - reflexivity.
  - discriminate.
  - intros k p. reflexivity.
  - apply wf_init.
  - lia.
  - vm_compute. reflexivity.
  - vm_compute. reflexivity.
  - exists w'. split; [exact Hsend | exact Hposts].
Defined.




(** ** Failed sends and the rate limiter *)

Section BulkAllFail.

Variable cfg : Config.
Variable format : string -> Contact -> Result string.
Variable transport : Transport.
Hypothesis cap_positive : 0 < RATE_LIMIT cfg.
Hypothesis delay_nonneg : 0 <= RETRY_DELAY cfg.
Hypothesis all_fail : forall n p, failing (transport n p) = true.

Variable fuel : nat.
Variable message_template : string.
Variable image_url : option string.
Variable callback : option Callback.
Hypothesis fuel_enough : enough cfg 0 fuel.

Local Abbreviation step :=
  (process_contact cfg format transport fuel message_template image_url callback).
Local Abbreviation loop :=
  (bulk_loop cfg format transport fuel message_template image_url callback).

Lemma process_contact_all_fail n index c results w :
  sendable format message_template c ->
  wf w -> message_count (self w) < RATE_LIMIT cfg ->
  exists results' w',
    step n index c results w = Some (results', w')
    /\ wf w'
    /\ posts (trace w') = (posts (trace w) + attempts cfg 0)%nat
    /\ throttles (trace w') = throttles (trace w)
    /\ (message_count (self w') = message_count (self w)
        \/ message_count (self w') = 0)
    /\ message_count (self w') < RATE_LIMIT cfg
    /\ successful results' = successful results.
Proof.
  intros [[custom_message Hfmt] [phone_number Hphone]] Hw Hbelow.
  unfold process_contact. rewrite Hfmt, Hphone.
  destruct (send_message_all_fail cfg transport cap_positive delay_nonneg all_fail
              fuel phone_number custom_message image_url 0 w Hw fuel_enough)
    as (w1 & -> & Hw1 & Hposts & _ & Hcount & Hthr).
  destruct (Hthr Hbelow) as [Hthr1 Hbelow1].
  rewrite update_results_dict, failure_dict_error.
  destruct callback as [cb|].
  - set (r1 := record_failure c _ results).
    set (w2 := emit (EvProgress (progress_of index n) r1) w1).
    assert (Hw2 : wf w2) by exact Hw1.
    assert (Hp2 : posts (trace w2) = posts (trace w1)).
    { change (trace w2) with (trace w1 ++ [EvProgress (progress_of index n) r1]).
      rewrite posts_app. change (posts [EvProgress (progress_of index n) r1]) with 0%nat.
      lia. }
    assert (Ht2 : throttles (trace w2) = throttles (trace w1)).
    { change (trace w2) with (trace w1 ++ [EvProgress (progress_of index n) r1]).
      rewrite throttles_app.
      change (throttles [EvProgress (progress_of index n) r1]) with 0%nat. lia. }
    destruct (cb (progress_of index n) r1).
    + exists (on_exception c e r1), w2. rewrite Hp2, Ht2. repeat split; auto; lia.
    + exists r1, w2. rewrite Hp2, Ht2. repeat split; auto; lia.
  - eexists _, w1. repeat split; auto; lia.
Qed.

Lemma bulk_loop_all_fail n contacts : forall index results w,
  Forall (sendable format message_template) contacts ->
  wf w -> message_count (self w) < RATE_LIMIT cfg ->
  exists results' w',
    loop n index contacts results w = Some (results', w')
    /\ posts (trace w') = (posts (trace w) + length contacts * attempts cfg 0)%nat
    /\ throttles (trace w') = throttles (trace w)
    /\ (message_count (self w') = message_count (self w)
        \/ message_count (self w') = 0)
    /\ successful results' = successful results.
Proof.
  induction contacts as [|c rest IH]; intros index results w Hall Hw Hbelow.
  - exists results, w. simpl. repeat split; auto; lia.
  - inversion Hall as [|? ? Hc Hrest]; subst.
    change (loop n index (c :: rest) results w)
      with (match step n index c results w with
            | None => None
            | Some (results, w) => loop n (S index) rest results w
            end).
    destruct (process_contact_all_fail n index c results w Hc Hw Hbelow)
      as (r1 & w1 & -> & Hw1 & Hp1 & Ht1 & Hc1 & Hb1 & Hs1).
    destruct (IH (S index) r1 w1 Hrest Hw1 Hb1)
      as (r2 & w2 & -> & Hp2 & Ht2 & Hc2 & Hs2).
    exists r2, w2. split; [reflexivity|].
    change (length (c :: rest)) with (S (length rest)).
    split; [lia|]. split; [congruence|]. split; [|congruence].
    destruct Hc2 as [Hc2|Hc2]; [|auto]. rewrite Hc2. exact Hc1.
Qed.

End BulkAllFail.

(** C9, as the specification states it: a transport whose answers have
    status 200 and a body that is not JSON.  Every send fails, yet every
    attempt is counted: after the four attempts of one [send_message] the
    count has gone from 0 to 4, and with a cap of 2 the twelve attempts for
    three contacts, all failed, have waited 260 times for the rate
    limiter. *)
Lemma undecodable_answers_are_counted_and_throttled :
  (exists w',
     send_message config answers_not_json 64 "+14155552671" "Hi Ann" None 0 (init 0)
     = Some (Return (VDict (network_error "+14155552671"
                              "Expecting value: line 1 column 1 (char 0)")), w')
     /\ posts (trace w') = 4%nat
     /\ message_count (self (init 0)) = 0
     /\ message_count (self w') = 4)
  /\ (exists results w',
        send_bulk_messages cap_two plain_format answers_not_json 64 [ann; ann; ann]
          "Hi {name}" None None (init 0) = Some (results, w')
        /\ successful results = 0
        /\ failed results = 3
        /\ posts (trace w') = 12%nat
        /\ throttles (trace w') = 260%nat).
Proof.
  split.
  - eexists. split; [vm_compute; reflexivity|]. repeat split.
  - eexists _, _. split; [vm_compute; reflexivity|]. repeat split.
Qed.

(** C9, amended.  [message_count] counts the requests that are answered
    with status 200, whether or not the body of the answer then decodes:
    over a whole run the count grows by at most the number of those requests
    (from the old count, or from 0 when a window has started), and by
    exactly that number when the window is still the same at the end.
    Attempts that are answered with another status, or whose request raises
    a request exception, are not counted: when every attempt fails in that
    way, the count never goes up, and from a count below the cap all the
    attempts of a contact list of any length, the retries included, go
    through without a single wait of the rate limiter. *)
Theorem only_answers_with_status_200_are_counted
    cfg format (transport : Transport) fuel contacts message_template image_url
    callback w :
  0 < RATE_LIMIT cfg -> enough cfg 0 fuel -> wf w ->
  exists results w',
    send_bulk_messages cfg format transport fuel contacts message_template
      image_url callback w = Some (results, w')
    /\ counted_by_ok_posts w w'
    /\ ((last_reset_time (self w') == last_reset_time (self w))%Q ->
        message_count (self w')
        = message_count (self w)
          + (Z.of_nat (ok_posts (trace w')) - Z.of_nat (ok_posts (trace w))))
    /\ (0 <= RETRY_DELAY cfg ->
        (forall n p, failing (transport n p) = true) ->
        Forall (sendable format message_template) contacts ->
        message_count (self w) < RATE_LIMIT cfg ->
        posts (trace w') = (posts (trace w) + length contacts * attempts cfg 0)%nat
        /\ throttles (trace w') = throttles (trace w)
        /\ (message_count (self w') = message_count (self w)
            \/ message_count (self w') = 0)
        /\ successful results = 0).
Proof.
  intros Hcap Hfuel Hw. unfold send_bulk_messages.
  destruct (bulk_loop_returns cfg format transport Hcap fuel message_template
              image_url callback Hfuel (length contacts) contacts 0
              {| total := Z.of_nat (length contacts); successful := 0; failed := 0;
                 failures := [] |} w Hw)
    as (r & w' & Hrun & _).
  exists r, w'. split; [exact Hrun|].
  split; [eapply bulk_loop_counted; [exact Hcap | exact Hrun]|].
  split; [eapply bulk_loop_window; exact Hrun|].
  intros Hdelay Hfail Hall Hbelow.
  destruct (bulk_loop_all_fail cfg format transport Hcap Hdelay Hfail fuel
              message_template image_url callback Hfuel (length contacts) contacts 0
              {| total := Z.of_nat (length contacts); successful := 0; failed := 0;
                 failures := [] |} w Hall Hw Hbelow)
    as (r2 & w2 & Hrun2 & Hp & Ht & Hc & Hs).
  rewrite Hrun in Hrun2. injection Hrun2 as <- <-. auto.
Qed.

Lemma only_answers_with_status_200_are_counted_witness :
  (exists results w',
     send_bulk_messages cap_two plain_format always_500 64 [ann; ann; ann]
       "Hi {name}" None None (init 0) = Some (results, w')
     /\ posts (trace w') = 12%nat
     /\ throttles (trace w') = 0%nat
     /\ message_count (self w') = 0)
  /\ (exists results w',
        send_bulk_messages config plain_format answers_not_json 64 [ann; ann; ann]
          "Hi {name}" None None (init 0) = Some (results, w')
        /\ failed results = 3
        /\ message_count (self w') = 12).
Proof.
  split.
  - destruct (only_answers_with_status_200_are_counted cap_two plain_format
                always_500 64 [ann; ann; ann] "Hi {name}" None None (init 0))
      as (r & w' & Hrun & _ & _ & Hfail).
    + reflexivity.
    + unfold enough. simpl. lia.
    + apply wf_init.
    + destruct Hfail as (Hp & Ht & Hc & _).
      * discriminate.
      * intros n p. reflexivity.
      * repeat constructor; try (eexists; vm_compute; reflexivity).
      * reflexivity.
      * exists r, w'. split; [exact Hrun|]. split; [exact Hp|]. split; [exact Ht|].
        destruct Hc as [Hc|Hc]; exact Hc.
  - destruct (only_answers_with_status_200_are_counted config plain_format
                answers_not_json 64 [ann; ann; ann] "Hi {name}" None None (init 0))
      as (r & w' & Hrun & _ & Hexact & _).
    + reflexivity.
    + unfold enough. simpl. lia.
    + apply wf_init.
    + pose proof Hrun as Hrun2. vm_compute in Hrun2.
      injection Hrun2 as Hr Hw'. subst r w'.
      eexists _, _. split; [exact Hrun|]. split; [reflexivity|].
      rewrite Hexact; reflexivity.
Defined.

(** ** The claims on [send_bulk_messages] *)

Lemma bulk_loop_app cfg format transport fuel message_template image_url callback
    n (before after : list Contact) : forall index results w,
  bulk_loop cfg format transport fuel message_template image_url callback n index
    (before ++ after) results w
  = match bulk_loop cfg format transport fuel message_template image_url callback
            n index before results w with
    | None => None
    | Some (results', w') =>
        bulk_loop cfg format transport fuel message_template image_url callback
          n (index + length before) after results' w'
    end.
Proof.
  induction before as [|c rest IH]; intros index results w; simpl.
  - rewrite Nat.add_0_r. reflexivity.
  - destruct (process_contact cfg format transport fuel message_template image_url
                callback n index c results w) as [[r1 w1]|]; [|reflexivity].
    rewrite IH. replace (S index + length rest)%nat with (index + S (length rest))%nat by lia.
    reflexivity.
Qed.



(** C7.  For an empty contact list [send_bulk_messages] returns
    [total = 0], [successful = 0], [failed = 0] and no failures, and leaves
    the world as it was: the progress callback is not invoked (and no
    percentage is computed, so nothing is divided by the length 0). *)
Theorem empty_contact_list
    cfg format (transport : Transport) fuel message_template image_url callback w :
  send_bulk_messages cfg format transport fuel [] message_template image_url callback w
  = Some ({| total := 0; successful := 0; failed := 0; failures := [] |}, w)
  /\ forall results w',
       send_bulk_messages cfg format transport fuel [] message_template image_url
         callback w = Some (results, w') ->
       progress_calls (trace w') = progress_calls (trace w).
Proof. split; [reflexivity|]. intros results w' [= _ <-]. reflexivity. Qed.



(** C10.  When the send of a contact has succeeded, its success has been
    counted and the progress callback then raises, the [except] branch
    counts the same contact as failed as well, with the text of the
    exception, and the loop goes on with the next contact; the run returns
    a result in which [successful + failed] is larger than [total]. *)
Theorem callback_error_counts_contact_twice
    cfg format (transport : Transport) fuel message_template image_url (cb : Callback)
    (before after : list Contact) (c : Contact) phone_number custom_message
    (response : Value) e results1 w w1 w2 :
  0 < RATE_LIMIT cfg -> enough cfg 0 fuel -> wf w ->
  let n := length (before ++ c :: after) in
  bulk_loop cfg format transport fuel message_template image_url (Some cb)
    n 0 before (fresh_results n) w = Some (results1, w1) ->
  format message_template c = Return custom_message ->
  c !! "phone_number" = Some phone_number ->
  send_message cfg transport fuel phone_number custom_message image_url 0 w1
  = Some (Return response, w2) ->
  contains "error" response = Return false ->
  let progress := progress_of (length before) n in
  cb progress (record_success results1) = Some e ->
  let results2 := on_exception c e (record_success results1) in
  let w3 := emit (EvProgress progress (record_success results1)) w2 in
  process_contact cfg format transport fuel message_template image_url (Some cb)
    n (length before) c results1 w1 = Some (results2, w3)
  /\ successful results2 = successful results1 + 1
  /\ failed results2 = failed results1 + 1
  /\ failures results2
     = failures results1 ++ [ {| contact := c; error := VStr (str_exn e) |} ]
  /\ send_bulk_messages cfg format transport fuel (before ++ c :: after)
       message_template image_url (Some cb) w
     = bulk_loop cfg format transport fuel message_template image_url (Some cb)
         n (S (length before)) after results2 w3
  /\ exists results w',
       send_bulk_messages cfg format transport fuel (before ++ c :: after)
         message_template image_url (Some cb) w = Some (results, w')
       /\ total results < successful results + failed results.
Proof.
  intros Hcap Hfuel Hw n Hbefore Hfmt Hphone Hsend Hok progress Hraise results2 w3.
  assert (Hstep : process_contact cfg format transport fuel message_template image_url
                    (Some cb) n (length before) c results1 w1 = Some (results2, w3)).
  { unfold process_contact, update_results. rewrite Hfmt, Hphone, Hsend, Hok.
    fold progress. rewrite Hraise. reflexivity. }
  assert (Hrun : send_bulk_messages cfg format transport fuel (before ++ c :: after)
                   message_template image_url (Some cb) w
                 = bulk_loop cfg format transport fuel message_template image_url
                     (Some cb) n (S (length before)) after results2 w3).
  { unfold send_bulk_messages. fold n. change (bulk_loop _ _ _ _ _ _ _ n 0 _ _ w)
      with (bulk_loop cfg format transport fuel message_template image_url (Some cb)
              n 0 (before ++ c :: after) (fresh_results n) w).
    rewrite bulk_loop_app, Hbefore. simpl. rewrite Hstep. reflexivity. }
  split; [exact Hstep|]. do 3 (split; [reflexivity|]). split; [exact Hrun|].
  destruct (bulk_loop_returns cfg format transport Hcap fuel message_template
              image_url (Some cb) Hfuel n before 0 (fresh_results n) w Hw)
    as (r & w0 & Heq & Hw1 & Ht1 & Hs1 & _).
  rewrite Hbefore in Heq. injection Heq as <- <-.
  destruct (send_message_returns cfg transport Hcap fuel phone_number custom_message
              image_url 0 w1 Hw1 Hfuel) as (res & w0 & Heq & Hw2 & _).
  rewrite Hsend in Heq. injection Heq as <- <-.
  assert (Hw3 : wf w3) by exact Hw2.
  destruct (bulk_loop_returns cfg format transport Hcap fuel message_template
              image_url (Some cb) Hfuel n after (S (length before)) results2 w3 Hw3)
    as (r & w' & Heq & _ & Ht & Hs & _).
  exists r, w'. rewrite Hrun. split; [exact Heq|].
  assert (Hn : Z.of_nat n = Z.of_nat (length before) + 1 + Z.of_nat (length after)).
  { unfold n. rewrite length_app. simpl. lia. }
  unfold results2 in Ht, Hs. simpl in Ht, Hs, Ht1, Hs1. lia.
Qed.

Lemma callback_error_counts_contact_twice_witness :
  exists results w',
    send_bulk_messages config plain_format always_ok 64 [ann] "Hi {name}" None
      (Some raising_callback) (init 0) = Some (results, w')
    /\ total results < successful results + failed results.
Proof.
  refine (proj2 (proj2 (proj2 (proj2 (proj2
    (callback_error_counts_contact_twice config plain_format always_ok 64 "Hi {name}"
       None raising_callback [] [] ann "+14155552671" "Hi Ann" (VDict accepted)
       (OtherException "RuntimeError" "window closed") (fresh_results 1) (init 0) (init 0)
       (count_message (emit (EvPost (TextPayload "+14155552671" "Hi Ann")
                               (Response 200 (Return (VDict accepted)))) (init 0)))
       _ _ _ _ _ _ _ _ _)))))).
  - reflexivity.
  - unfold enough. simpl. lia.
  - apply wf_init.
  - reflexivity.
  - vm_compute. reflexivity.
  - vm_compute. reflexivity.
  - vm_compute. reflexivity.
  - vm_compute. reflexivity.
  - reflexivity.
Defined.

(** C1 at the input on which the code breaks it: one contact, a send that
    succeeds and a progress callback that raises.  The contact is counted
    once as successful and once as failed, so the counts add up to 2 for a
    total of 1. *)
Theorem counts_exceed_total_when_callback_raises :
  exists results w',
    send_bulk_messages config plain_format always_ok 64 [ann] "Hi {name}" None
      (Some raising_callback) (init 0) = Some (results, w')
    /\ total results = 1 /\ successful results = 1 /\ failed results = 1
    /\ failures results = [ {| contact := ann; error := VStr "window closed" |} ]
    /\ successful results + failed results <> total results.
Proof.
  eexists _, _. split; [vm_compute; reflexivity|].
  repeat split; discriminate.
Qed.

(** C3 at the input on which the code breaks it: one contact without the
    field of the template, and a progress callback.  The contact is recorded
    as failed, but the callback is never invoked: the [except] branch does
    not report progress, so no percentage, and no 100, is ever seen. *)
Theorem no_progress_for_a_contact_that_raises :
  exists w',
    send_bulk_messages config plain_format always_ok 64 [nameless] "Hi {name}" None
      (Some quiet_callback) (init 0)
    = Some ({| total := 1; successful := 0; failed := 1;
               failures := [ {| contact := nameless; error := VStr "'name'" |} ] |}, w')
    /\ progress_calls (trace w') = [].
Proof. eexists. split; [vm_compute; reflexivity | reflexivity]. Qed.

(** * Further properties of the code *)

(** ** The rate limiter, further *)

(** X1.  [_check_rate_limit] is idempotent at one instant: a second check
    at the same time gives the same answer and leaves the object as the
    first one left it (a window that was just restarted is not restarted
    again). *)
Theorem check_rate_limit_idempotent cfg (t : Q) (api : WhatsAppAPI) :
  _check_rate_limit cfg t (snd (_check_rate_limit cfg t api))
  = _check_rate_limit cfg t api.
Proof.
  destruct (Qlt_le_dec (t - last_reset_time api) 60) as [Hlt|Hle].
  - rewrite (check_within cfg t api Hlt). simpl. apply check_within. exact Hlt.
  - rewrite (check_elapsed cfg t api Hle). simpl. apply check_within. simpl. lra.
Qed.

Lemma wait_sleeps cfg (fuel : nat) : forall (w w' : World),
  _wait_for_rate_limit cfg fuel w = Some w' ->
  exists k : nat,
    (k < fuel)%nat
    /\ trace w' = trace w ++ repeat EvThrottle k
    /\ (clock w' == clock w + inject_Z (Z.of_nat k))%Q.
Proof.
  induction fuel as [|fuel IH]; intros w w'; simpl; [discriminate|].
  destruct (_check_rate_limit cfg (clock w) (self w)) as [ok api].
  destruct ok.
  - intros [= <-]. exists 0%nat. split; [lia|]. split.
    + cbn [repeat trace set_self]. rewrite app_nil_r. reflexivity.
    + cbn [clock set_self]. change (inject_Z (Z.of_nat 0)) with 0%Q. lra.
  - intros Hrec. apply IH in Hrec. destruct Hrec as (k & Hk & Ht & Hc).
    exists (S k). split; [lia|]. cbn [trace clock sleep set_self] in Ht, Hc. split.
    + rewrite Ht, <- app_assoc. reflexivity.
    + rewrite Hc, Nat2Z.inj_succ. unfold Z.succ. rewrite inject_Z_plus.
      change (inject_Z 1) with 1%Q. lra.
Qed.

Lemma wait_more_fuel cfg (fuel : nat) : forall (fuel' : nat) (w w' : World),
  _wait_for_rate_limit cfg fuel w = Some w' -> (fuel <= fuel')%nat ->
  _wait_for_rate_limit cfg fuel' w = Some w'.
Proof.
  induction fuel as [|fuel IH]; intros fuel' w w'; simpl; [discriminate|].
  intros Hrun Hle. destruct fuel' as [|fuel']; [lia|]. simpl.
  destruct (_check_rate_limit cfg (clock w) (self w)) as [ok api].
  destruct ok; [exact Hrun|]. apply IH; [exact Hrun|lia].
Qed.

(** X2.  With a positive cap and a window that does not start in the
    future, [_wait_for_rate_limit] returns after at most 60 one-second
    sleeps; it does nothing but sleep, the clock has advanced by the
    number of sleeps, and on return the count is below the cap. *)
Theorem wait_for_rate_limit_returns cfg (fuel : nat) (w : World) :
  0 < RATE_LIMIT cfg -> wf w -> (61 <= fuel)%nat ->
  exists (w' : World) (k : nat),
    _wait_for_rate_limit cfg fuel w = Some w'
    /\ (k <= 60)%nat
    /\ trace w' = trace w ++ repeat EvThrottle k
    /\ (clock w' == clock w + inject_Z (Z.of_nat k))%Q
    /\ message_count (self w') < RATE_LIMIT cfg.
Proof.
  intros Hcap Hw Hfuel.
  destruct (wait_returns cfg Hcap 61 w Hw) as (w' & Hrun & Hwaited); [lia|].
  destruct (wait_sleeps cfg 61 w w' Hrun) as (k & Hk & Ht & Hc).
  exists w', k. split; [eapply wait_more_fuel; eassumption|].
  split; [lia|]. split; [exact Ht|]. split; [exact Hc|].
  exact (waited_below _ _ _ Hwaited).
Qed.

Lemma wait_for_rate_limit_returns_witness :
  exists (w' : World) (k : nat),
    _wait_for_rate_limit cap_two 61 (count_message (count_message (init 0))) = Some w'
    /\ (k <= 60)%nat
    /\ message_count (self w') < 2.
Proof.
  destruct (wait_for_rate_limit_returns cap_two 61 (count_message (count_message (init 0))))
    as (w' & k & Hrun & Hk & _ & _ & Hbelow).
  - reflexivity.
  - unfold wf. simpl. lra.
  - lia.
  - exists w', k. split; [exact Hrun|]. split; [exact Hk | exact Hbelow].
Defined.

(** X3.  When the count has reached the cap, [_wait_for_rate_limit] returns
    only once 60 seconds have passed since the start of the window, and it
    returns with the count at 0 and a window that starts at the time of its
    return. *)
Theorem wait_when_full_waits_for_the_window cfg (fuel : nat) (w w' : World) :
  0 < RATE_LIMIT cfg ->
  RATE_LIMIT cfg <= message_count (self w) ->
  _wait_for_rate_limit cfg fuel w = Some w' ->
  (60 <= clock w' - last_reset_time (self w))%Q
  /\ self w' = {| message_count := 0; last_reset_time := clock w' |}.
Proof.
  intros Hcap. revert w.
  induction fuel as [|fuel IH]; intros w Hfull; simpl; [discriminate|].
  pose proof (check_cases cfg Hcap (clock w) (self w)) as Hc.
  destruct (_check_rate_limit cfg (clock w) (self w)) as [ok api].
  destruct Hc as [Hapi Hok]. destruct ok.
  - intros [= <-]. simpl.
    destruct Hapi as [[-> _]|(-> & Hle & _)].
    + assert (message_count (self w) < RATE_LIMIT cfg) by (apply Hok; reflexivity). lia.
    + split; [exact Hle | reflexivity].
  - intros Hrec.
    assert (Hsame : api = self w).
    { destruct Hapi as [[-> _]|(_ & _ & ?)]; [reflexivity|discriminate]. }
    subst api. apply IH in Hrec; [|exact Hfull]. exact Hrec.
Qed.

Lemma wait_when_full_waits_for_the_window_witness :
  exists w',
    _wait_for_rate_limit cap_two 61 (count_message (count_message (init 0))) = Some w'
    /\ (60 <= clock w' - 0)%Q
    /\ message_count (self w') = 0.
Proof.
  destruct (wait_returns cap_two eq_refl 61 (count_message (count_message (init 0))))
    as (w' & Hrun & _); [unfold wf; simpl; lra | lia |].
  destruct (wait_when_full_waits_for_the_window cap_two 61
              (count_message (count_message (init 0))) w') as [Hclock Hself].
  - reflexivity.
  - simpl. lia.
  - exact Hrun.
  - exists w'. split; [exact Hrun|]. split; [exact Hclock|]. rewrite Hself. reflexivity.
Defined.

(** X4.  With a cap of 0 or less, [_wait_for_rate_limit] never returns,
    however long it polls, and so neither does [send_message]: no request
    is ever made. *)
Theorem nonpositive_cap_never_sends cfg (transport : Transport) (fuel : nat) (w : World)
    phone_number message image_url retry_count :
  RATE_LIMIT cfg <= 0 -> 0 <= message_count (self w) ->
  _wait_for_rate_limit cfg fuel w = None
  /\ send_message cfg transport fuel phone_number message image_url retry_count w = None.
Proof.
  intros Hcap Hcount.
  assert (Hwait : forall fuel (w : World), 0 <= message_count (self w) ->
                  _wait_for_rate_limit cfg fuel w = None).
  { clear - Hcap. intros fuel0. induction fuel0 as [|fuel0 IH]; intros w0 Hcount; [reflexivity|].
    simpl. unfold _check_rate_limit.
    destruct (Qle_bool 60 (clock w0 - last_reset_time (self w0))).
    - cbn [message_count]. destruct (Z.geb_spec 0 (RATE_LIMIT cfg)); [|lia].
      apply IH. simpl. lia.
    - destruct (Z.geb_spec (message_count (self w0)) (RATE_LIMIT cfg)); [|lia].
      apply IH. simpl. exact Hcount. }
  split; [apply Hwait; exact Hcount|].
  destruct fuel as [|fuel]; [reflexivity|].
  rewrite send_message_unfold, Hwait by exact Hcount. reflexivity.
Qed.

Lemma nonpositive_cap_never_sends_witness :
  send_message {| MAX_RETRIES := 3; RETRY_DELAY := 5; RATE_LIMIT := 0 |} always_ok 1000
    "+14155552671" "Hi Ann" None 0 (init 0) = None.
Proof.
  refine (proj2 (nonpositive_cap_never_sends
            {| MAX_RETRIES := 3; RETRY_DELAY := 5; RATE_LIMIT := 0 |} always_ok 1000
            (init 0) "+14155552671" "Hi Ann" None 0 _ _)).
  - simpl. lia.
  - simpl. lia.
Defined.

(** ** [send_message], further *)

Lemma posted_app (t1 t2 : list Event) : posted (t1 ++ t2) = posted t1 ++ posted t2.
Proof.
  induction t1 as [|ev t1 IH]; simpl; [reflexivity|].
  destruct ev; simpl; rewrite ?IH; reflexivity.
Qed.

Lemma posted_repeat_throttle (k : nat) : posted (repeat EvThrottle k) = [].
Proof. induction k; simpl; auto. Qed.

Lemma backoffs_app (t1 t2 : list Event) :
  backoffs (t1 ++ t2) = (backoffs t1 + backoffs t2)%nat.
Proof. unfold backoffs. rewrite List.filter_app, length_app. reflexivity. Qed.

Lemma backoffs_repeat_throttle (k : nat) : backoffs (repeat EvThrottle k) = 0%nat.
Proof. induction k; simpl; auto. Qed.

Lemma waited_posted cfg (w w' : World) :
  waited cfg w w' -> posted (trace w') = posted (trace w).
Proof.
  intros [[k [-> _]] _ _ _]. rewrite posted_app, posted_repeat_throttle, app_nil_r.
  reflexivity.
Qed.

Lemma waited_backoffs cfg (w w' : World) :
  waited cfg w w' -> backoffs (trace w') = backoffs (trace w).
Proof.
  intros [[k [-> _]] _ _ _]. rewrite backoffs_app, backoffs_repeat_throttle. lia.
Qed.

Lemma wait_clock cfg (fuel : nat) (w w' : World) :
  _wait_for_rate_limit cfg fuel w = Some w' -> (clock w <= clock w')%Q.
Proof.
  intros Hrun. destruct (wait_sleeps cfg fuel w w' Hrun) as (k & _ & _ & Hc).
  assert (0 <= inject_Z (Z.of_nat k))%Q
    by (change 0%Q with (inject_Z 0); rewrite <- Zle_Qle; lia).
  lra.
Qed.

Section SendingFurther.

Variable cfg : Config.
Variable transport : Transport.
Hypothesis cap_positive : 0 < RATE_LIMIT cfg.

(** What the requests of one call are, and what the call keeps. *)
Lemma send_message_posted fuel phone_number message image_url :
  forall retry_count w res w',
  send_message cfg transport fuel phone_number message image_url retry_count w
  = Some (res, w') ->
  (exists k : nat,
      (1 <= k <= attempts cfg retry_count)%nat
      /\ posted (trace w')
         = posted (trace w) ++ repeat (build_payload phone_number message image_url) k
      /\ (backoffs (trace w') = backoffs (trace w) + (k - 1))%nat)
  /\ message_count (self w') <= RATE_LIMIT cfg
  /\ (0 <= message_count (self w) -> 0 <= message_count (self w'))
  /\ (clock w <= clock w')%Q.
Proof.
  induction fuel as [|fuel IH]; intros retry_count w res w'; [discriminate|].
  rewrite send_message_unfold.
  destruct (_wait_for_rate_limit cfg (S fuel) w) as [w1|] eqn:Hwait; [|discriminate].
  pose proof (wait_clock _ _ _ _ Hwait) as Hclock1.
  apply (wait_spec cfg cap_positive) in Hwait.
  pose proof (waited_posted _ _ _ Hwait) as Hposted.
  pose proof (waited_backoffs _ _ _ Hwait) as Hback.
  pose proof (waited_below _ _ _ Hwait) as Hbelow.
  pose proof (waited_count _ _ _ Hwait) as Hcount.
  cbv zeta.
  set (payload := build_payload phone_number message image_url).
  set (answer := transport (posts (trace w1)) payload).
  set (w2 := emit (EvPost payload answer) w1).
  assert (Hp2 : posted (trace w2) = posted (trace w) ++ [payload]).
  { change (trace w2) with (trace w1 ++ [EvPost payload answer]).
    rewrite posted_app, Hposted. reflexivity. }
  assert (Hb2 : backoffs (trace w2) = backoffs (trace w)).
  { change (trace w2) with (trace w1 ++ [EvPost payload answer]).
    rewrite backoffs_app, Hback. change (backoffs [EvPost payload answer]) with 0%nat. lia. }
  assert (Hdone : forall (w3 : World),
    trace w3 = trace w2 -> clock w3 = clock w2 ->
    message_count (self w3) = message_count (self w1)
    \/ message_count (self w3) = message_count (self w1) + 1 ->
    (exists k : nat,
        (1 <= k <= attempts cfg retry_count)%nat
        /\ posted (trace w3) = posted (trace w) ++ repeat payload k
        /\ (backoffs (trace w3) = backoffs (trace w) + (k - 1))%nat)
    /\ message_count (self w3) <= RATE_LIMIT cfg
    /\ (0 <= message_count (self w) -> 0 <= message_count (self w3))
    /\ (clock w <= clock w3)%Q).
  { intros w3 Ht Hc Hm. rewrite Ht, Hc. split.
    - exists 1%nat. unfold attempts. split; [lia|]. split; [exact Hp2|]. lia.
    - split; [lia|]. split; [lia | exact Hclock1]. }
  assert (Hretry : forall (final : Value) (w3 : World),
    trace w3 = trace w2 -> clock w3 = clock w2 ->
    message_count (self w3) = message_count (self w1)
    \/ message_count (self w3) = message_count (self w1) + 1 ->
    (if retry_count <? MAX_RETRIES cfg then
       if RETRY_DELAY cfg <? 0 then Some (Raise sleep_error, w3)
       else send_message cfg transport fuel phone_number message image_url
              (retry_count + 1) (sleep (RETRY_DELAY cfg) EvBackoff w3)
     else Some (Return final, w3)) = Some (res, w') ->
    (exists k : nat,
        (1 <= k <= attempts cfg retry_count)%nat
        /\ posted (trace w') = posted (trace w) ++ repeat payload k
        /\ (backoffs (trace w') = backoffs (trace w) + (k - 1))%nat)
    /\ message_count (self w') <= RATE_LIMIT cfg
    /\ (0 <= message_count (self w) -> 0 <= message_count (self w'))
    /\ (clock w <= clock w')%Q).
  { intros final w3 Ht Hc Hm.
    destruct (Z.ltb_spec retry_count (MAX_RETRIES cfg)) as [Hlt|Hge];
      [|intros [= _ <-]; apply Hdone; assumption].
    destruct (Z.ltb_spec (RETRY_DELAY cfg) 0) as [Hneg|Hpos];
      [intros [= _ <-]; apply Hdone; assumption|].
    intros Hrec. apply IH in Hrec.
    destruct Hrec as ((k & Hk & Hpk & Hbk) & Hle & Hnonneg & Hclk).
    change (trace (sleep (RETRY_DELAY cfg) EvBackoff w3)) with (trace w3 ++ [EvBackoff])
      in Hpk, Hbk.
    change (self (sleep (RETRY_DELAY cfg) EvBackoff w3)) with (self w3) in Hnonneg.
    change (clock (sleep (RETRY_DELAY cfg) EvBackoff w3))
      with (clock w3 + inject_Z (RETRY_DELAY cfg))%Q in Hclk.
    rewrite posted_app, Ht, Hp2 in Hpk. simpl in Hpk. rewrite app_nil_r in Hpk.
    rewrite backoffs_app, Ht, Hb2 in Hbk. change (backoffs [EvBackoff]) with 1%nat in Hbk.
    split.
    - exists (S k). unfold attempts in *. split; [lia|]. split.
      + rewrite Hpk, <- app_assoc. reflexivity.
      + lia.
    - split; [exact Hle|]. split; [intros; apply Hnonneg; lia|].
      assert (0 <= inject_Z (RETRY_DELAY cfg))%Q
        by (change 0%Q with (inject_Z 0); rewrite <- Zle_Qle; lia).
      rewrite Hc in Hclk. change (clock w2) with (clock w1) in Hclk. lra. }
  destruct answer as [status_code json|e].
  - destruct (status_code =? 200).
    + destruct json as [d|[key|msg|cls msg]].
      * intros [= _ <-]. apply Hdone; auto.
      * intros [= _ <-]. apply Hdone; auto.
      * apply Hretry; auto.
      * intros [= _ <-]. apply Hdone; auto.
    + apply Hretry; auto.
  - destruct e as [key|msg|cls msg].
    + intros [= _ <-]. apply Hdone; auto.
    + apply Hretry; auto.
    + intros [= _ <-]. apply Hdone; auto.
Qed.

End SendingFurther.

(** X5.  One call of [send_message] returns, whatever the transport does;
    it has posted one and the same payload between 1 and [MAX_RETRIES + 1]
    times (from [retry_count = 0]), with one retry delay between two
    requests, and it leaves a count that is not above the cap. *)
Theorem send_message_attempts
    cfg (transport : Transport) fuel phone_number message image_url (w : World) :
  0 < RATE_LIMIT cfg -> 0 <= MAX_RETRIES cfg -> wf w -> enough cfg 0 fuel ->
  exists res w' (k : nat),
    send_message cfg transport fuel phone_number message image_url 0 w = Some (res, w')
    /\ 1 <= Z.of_nat k <= MAX_RETRIES cfg + 1
    /\ posted (trace w')
       = posted (trace w) ++ repeat (build_payload phone_number message image_url) k
    /\ backoffs (trace w') = (backoffs (trace w) + (k - 1))%nat
    /\ message_count (self w') <= RATE_LIMIT cfg.
Proof.
  intros Hcap Hmax Hw Hfuel.
  destruct (send_message_returns cfg transport Hcap fuel phone_number message image_url
              0 w Hw Hfuel) as (res & w' & Hrun & _).
  destruct (send_message_posted cfg transport Hcap _ _ _ _ _ _ _ _ Hrun)
    as ((k & Hk & Hp & Hb) & Hle & _).
  exists res, w', k. unfold attempts in Hk. repeat split; auto; lia.
Qed.

Lemma send_message_attempts_witness :
  exists res w' (k : nat),
    send_message config fails_twice 64 "+14155552671" "Hi Ann" None 0 (init 0)
    = Some (res, w')
    /\ 1 <= Z.of_nat k <= 4
    /\ posted (trace w') = repeat (TextPayload "+14155552671" "Hi Ann") k.
Proof.
  destruct (send_message_attempts config fails_twice 64 "+14155552671" "Hi Ann" None
              (init 0)) as (res & w' & k & Hrun & Hk & Hp & _).
  - reflexivity.
  - discriminate.
  - apply wf_init.
  - unfold enough. simpl. lia.
  - exists res, w', k. split; [exact Hrun|]. split; [exact Hk | exact Hp].
Defined.

Section RetryThenSucceed.

Variable cfg : Config.
Variable transport : Transport.
Hypothesis cap_positive : 0 < RATE_LIMIT cfg.
Hypothesis delay_nonneg : 0 <= RETRY_DELAY cfg.

Lemma send_message_succeeds_after phone_number message image_url (d : Value) (k : nat) :
  forall fuel retry_count w,
  wf w -> enough cfg retry_count fuel ->
  Z.of_nat k <= MAX_RETRIES cfg - retry_count ->
  (forall i, (i < k)%nat ->
     failing (transport (posts (trace w) + i)%nat
                (build_payload phone_number message image_url)) = true) ->
  transport (posts (trace w) + k)%nat (build_payload phone_number message image_url)
  = Response 200 (Return d) ->
  exists w',
    send_message cfg transport fuel phone_number message image_url retry_count w
    = Some (Return d, w')
    /\ posts (trace w') = (posts (trace w) + k + 1)%nat
    /\ backoffs (trace w') = (backoffs (trace w) + k)%nat
    /\ progress_calls (trace w') = progress_calls (trace w).
Proof.
  induction k as [|k IH]; intros fuel retry_count w Hw Hfuel Hk Hfails Hok.
  - destruct fuel as [|fuel]; [unfold enough in Hfuel; lia|].
    rewrite send_message_unfold.
    destruct (wait_returns cfg cap_positive (S fuel) w Hw) as (w1 & -> & Hwait);
      [unfold enough in Hfuel; lia|].
    cbv zeta. rewrite (waited_posts _ _ _ Hwait).
    rewrite Nat.add_0_r in Hok. rewrite Hok. simpl.
    eexists. split; [reflexivity|]. simpl.
    rewrite posts_app, backoffs_app, progress_calls_app,
      (waited_posts _ _ _ Hwait), (waited_backoffs _ _ _ Hwait),
      (waited_progress _ _ _ Hwait).
    simpl. rewrite app_nil_r.
    repeat split; first [reflexivity | unfold posts, backoffs; simpl; lia].
  - destruct fuel as [|fuel]; [unfold enough in Hfuel; lia|].
    rewrite send_message_unfold.
    destruct (wait_returns cfg cap_positive (S fuel) w Hw) as (w1 & -> & Hwait);
      [unfold enough in Hfuel; lia|].
    cbv zeta. rewrite (waited_posts _ _ _ Hwait).
    set (payload := build_payload phone_number message image_url) in *.
    pose proof (Hfails 0%nat ltac:(lia)) as Hfirst. rewrite Nat.add_0_r in Hfirst.
    set (w2 := emit (EvPost payload (transport (posts (trace w)) payload)) w1).
    set (w3 := sleep (RETRY_DELAY cfg) EvBackoff w2).
    assert (Hp3 : posts (trace w3) = S (posts (trace w))).
    { change (trace w3)
        with ((trace w1 ++ [EvPost payload (transport (posts (trace w)) payload)])
              ++ [EvBackoff]).
      rewrite !posts_app, (waited_posts _ _ _ Hwait).
      change (posts [EvBackoff]) with 0%nat.
      change (posts [EvPost payload (transport (posts (trace w)) payload)]) with 1%nat.
      lia. }
    assert (Hb3 : backoffs (trace w3) = S (backoffs (trace w))).
    { change (trace w3)
        with ((trace w1 ++ [EvPost payload (transport (posts (trace w)) payload)])
              ++ [EvBackoff]).
      rewrite !backoffs_app, (waited_backoffs _ _ _ Hwait).
      change (backoffs [EvBackoff]) with 1%nat.
      change (backoffs [EvPost payload (transport (posts (trace w)) payload)]) with 0%nat.
      lia. }
    assert (Hg3 : progress_calls (trace w3) = progress_calls (trace w)).
    { change (trace w3)
        with ((trace w1 ++ [EvPost payload (transport (posts (trace w)) payload)])
              ++ [EvBackoff]).
      rewrite !progress_calls_app, (waited_progress _ _ _ Hwait). simpl.
      rewrite !app_nil_r. reflexivity. }
    destruct (IH fuel (retry_count + 1) w3) as (w' & Hrun & Hp & Hb & Hg).
    + apply wf_sleep; [exact delay_nonneg|]. exact (waited_wf _ _ _ Hwait Hw).
    + unfold enough in *. lia.
    + lia.
    + intros i Hi. rewrite Hp3.
      replace (S (posts (trace w)) + i)%nat with (posts (trace w) + S i)%nat by lia.
      apply Hfails. lia.
    + rewrite Hp3.
      replace (S (posts (trace w)) + k)%nat with (posts (trace w) + S k)%nat by lia.
      exact Hok.
    + exists w'. rewrite Hp3 in Hp. rewrite Hb3 in Hb. rewrite Hg3 in Hg.
      split; [|split; [lia|split; [lia|exact Hg]]].
      assert (Hlt : (retry_count <? MAX_RETRIES cfg) = true) by (apply Z.ltb_lt; lia).
      assert (Hnn : (RETRY_DELAY cfg <? 0) = false) by (apply Z.ltb_ge; lia).
      fold w2. destruct (transport (posts (trace w)) payload) as [status_code json|e];
        simpl in Hfirst.
      * destruct (status_code =? 200); [discriminate|]. rewrite Hlt, Hnn. exact Hrun.
      * destruct e as [key|msg|cls msg]; try discriminate. rewrite Hlt, Hnn. exact Hrun.
Qed.

End RetryThenSucceed.

(** X6.  When the first [k] attempts fail (a status other than 200, or a
    request exception), [k] is at most [MAX_RETRIES] and the next attempt is
    answered with status 200, [send_message] returns the body of that
    answer after exactly [k + 1] requests and [k] retry delays. *)
Theorem send_message_retries_until_success
    cfg (transport : Transport) fuel phone_number message image_url (d : Value)
    (k : nat) (w : World) :
  0 < RATE_LIMIT cfg -> 0 <= RETRY_DELAY cfg -> wf w -> enough cfg 0 fuel ->
  Z.of_nat k <= MAX_RETRIES cfg ->
  (forall i, (i < k)%nat ->
     failing (transport (posts (trace w) + i)%nat
                (build_payload phone_number message image_url)) = true) ->
  transport (posts (trace w) + k)%nat (build_payload phone_number message image_url)
  = Response 200 (Return d) ->
  exists w',
    send_message cfg transport fuel phone_number message image_url 0 w
    = Some (Return d, w')
    /\ posts (trace w') = (posts (trace w) + k + 1)%nat
    /\ backoffs (trace w') = (backoffs (trace w) + k)%nat.
Proof.
  intros Hcap Hdelay Hw Hfuel Hk Hfails Hok.
  destruct (send_message_succeeds_after cfg transport Hcap Hdelay phone_number message
              image_url d k fuel 0 w Hw Hfuel) as (w' & Hrun & Hp & Hb & _);
    [lia | exact Hfails | exact Hok |].
  exists w'. auto.
Qed.

Lemma send_message_retries_until_success_witness :
  exists w',
    send_message config fails_twice 64 "+14155552671" "Hi Ann" None 0 (init 0)
    = Some (Return (VDict accepted), w')
    /\ posts (trace w') = 3%nat
    /\ backoffs (trace w') = 2%nat.
Proof.
  refine (send_message_retries_until_success config fails_twice 64 "+14155552671"
            "Hi Ann" None (VDict accepted) 2 (init 0) _ _ _ _ _ _ _).
  - reflexivity.
  - discriminate.
  - apply wf_init.
  - unfold enough. simpl. lia.
  - discriminate.
  - intros i Hi. destruct i as [|[|i]]; [reflexivity | reflexivity | lia].
  - reflexivity.
Defined.



(** ** [send_bulk_messages], further *)

Section BulkFurther.

Variable cfg : Config.
Variable format : string -> Contact -> Result string.
Variable transport : Transport.
Hypothesis cap_positive : 0 < RATE_LIMIT cfg.

Variable fuel : nat.
Variable message_template : string.
Variable image_url : option string.
Variable callback : option Callback.

Local Abbreviation step :=
  (process_contact cfg format transport fuel message_template image_url callback).
Local Abbreviation loop :=
  (bulk_loop cfg format transport fuel message_template image_url callback).

Lemma process_contact_posted n index c results w results' w' :
  step n index c results w = Some (results', w') ->
  (exists new, posted (trace w') = posted (trace w) ++ new
               /\ Forall (from_contact format message_template image_url [c]) new)
  /\ (message_count (self w) <= RATE_LIMIT cfg ->
      message_count (self w') <= RATE_LIMIT cfg)
  /\ (0 <= message_count (self w) -> 0 <= message_count (self w'))
  /\ (clock w <= clock w')%Q.
Proof.
  unfold process_contact.
  assert (Hsame : (exists new, posted (trace w) = posted (trace w) ++ new
                    /\ Forall (from_contact format message_template image_url [c]) new)
                  /\ (message_count (self w) <= RATE_LIMIT cfg ->
                      message_count (self w) <= RATE_LIMIT cfg)
                  /\ (0 <= message_count (self w) -> 0 <= message_count (self w))
                  /\ (clock w <= clock w)%Q).
  { split; [exists []; rewrite app_nil_r; auto|]. repeat split; auto. lra. }
  destruct (format message_template c) as [custom_message|e] eqn:Hfmt;
    [|intros [= _ <-]; exact Hsame].
  destruct (c !! "phone_number") as [phone_number|] eqn:Hphone;
    [|intros [= _ <-]; exact Hsame].
  destruct (send_message _ _ _ _ _ _ _ _) as [[res w1]|] eqn:Hsend; [|discriminate].
  apply (send_message_posted cfg transport cap_positive) in Hsend.
  destruct Hsend as ((k & _ & Hp & _) & Hle & Hnn & Hclock).
  assert (Hsent : forall w2 : World,
    trace w2 = trace w1 \/ (exists ev, trace w2 = trace w1 ++ [ev] /\ is_post ev = false) ->
    self w2 = self w1 -> clock w2 = clock w1 ->
    (exists new, posted (trace w2) = posted (trace w) ++ new
                 /\ Forall (from_contact format message_template image_url [c]) new)
    /\ (message_count (self w) <= RATE_LIMIT cfg ->
        message_count (self w2) <= RATE_LIMIT cfg)
    /\ (0 <= message_count (self w) -> 0 <= message_count (self w2))
    /\ (clock w <= clock w2)%Q).
  { intros w2 Ht Hs Hc. rewrite Hs, Hc. split; [|auto].
    exists (repeat (build_payload phone_number custom_message image_url) k). split.
    - destruct Ht as [->|(ev & -> & Hev)]; [exact Hp|].
      rewrite posted_app, Hp. destruct ev; try discriminate; simpl; apply app_nil_r.
    - apply Forall_forall. intros p Hin. apply list_elem_of_In, repeat_spec in Hin. subst p.
      exists c, phone_number, custom_message. simpl. auto. }
  destruct res as [response|e]; [|intros [= _ <-]; apply Hsent; auto].
  destruct (update_results c response results) as [r1|[e r1]];
    [|intros [= _ <-]; apply Hsent; auto].
  destruct callback as [cb|]; [|intros [= _ <-]; apply Hsent; auto].
  destruct (cb _ _); intros [= _ <-]; apply Hsent; auto; right; eexists; split;
    reflexivity.
Qed.

Lemma from_contact_weaken (l1 l2 : list Contact) (p : Payload) :
  (forall c, In c l1 -> In c l2) ->
  from_contact format message_template image_url l1 p ->
  from_contact format message_template image_url l2 p.
Proof.
  intros Hsub (c & pn & m & Hin & H1 & H2 & H3). exists c, pn, m. auto.
Qed.

Lemma bulk_loop_posted n contacts : forall index results w results' w',
  loop n index contacts results w = Some (results', w') ->
  (exists new, posted (trace w') = posted (trace w) ++ new
               /\ Forall (from_contact format message_template image_url contacts) new)
  /\ (message_count (self w) <= RATE_LIMIT cfg ->
      message_count (self w') <= RATE_LIMIT cfg)
  /\ (0 <= message_count (self w) -> 0 <= message_count (self w'))
  /\ (clock w <= clock w')%Q.
Proof.
  induction contacts as [|c rest IH]; intros index results w results' w'.
  - intros [= _ <-]. split; [exists []; rewrite app_nil_r; auto|].
    repeat split; auto. lra.
  - change (loop n index (c :: rest) results w)
      with (match step n index c results w with
            | None => None
            | Some (results, w) => loop n (S index) rest results w
            end).
    destruct (step n index c results w) as [[r1 w1]|] eqn:Hstep; [|discriminate].
    intros Hloop. apply process_contact_posted in Hstep. apply IH in Hloop.
    destruct Hstep as ((new1 & Hp1 & Hf1) & Hle1 & Hnn1 & Hc1).
    destruct Hloop as ((new2 & Hp2 & Hf2) & Hle2 & Hnn2 & Hc2).
    split; [|repeat split; auto; lra].
    exists (new1 ++ new2). split; [rewrite Hp2, Hp1, app_assoc; reflexivity|].
    apply Forall_app. split.
    + eapply Forall_impl; [exact Hf1|]. intros p. apply from_contact_weaken.
      intros c' [->|[]]. left. reflexivity.
    + eapply Forall_impl; [exact Hf2|]. intros p. apply from_contact_weaken.
      intros c' Hin. right. exact Hin.
Qed.

End BulkFurther.

(** X8.  [send_bulk_messages] returns for every contact list, transport and
    callback, also one that raises: [total] is the length of the list,
    [failures] has at most [failed] entries, and [successful + failed] lies
    between [total] and twice [total].  When the bodies answered with status
    200 are readable (none of them has ["error"] in it without being a
    dictionary), [failed] is the number of entries of [failures]; when
    moreover there is no callback or the callback returns normally,
    [successful + failed] equals [total]. *)
Theorem send_bulk_messages_summary
    cfg format (transport : Transport) fuel contacts message_template image_url
    callback (w : World) :
  0 < RATE_LIMIT cfg -> enough cfg 0 fuel -> wf w ->
  exists results w',
    send_bulk_messages cfg format transport fuel contacts message_template
      image_url callback w = Some (results, w')
    /\ total results = Z.of_nat (length contacts)
    /\ Z.of_nat (length (failures results)) <= failed results
    /\ 0 <= successful results
    /\ total results <= successful results + failed results <= 2 * total results
    /\ (answers_readable transport ->
        failed results = Z.of_nat (length (failures results))
        /\ (quiet callback -> successful results + failed results = total results)).
Proof.
  intros Hcap Hfuel Hw. unfold send_bulk_messages.
  destruct (bulk_loop_returns cfg format transport Hcap fuel message_template
              image_url callback Hfuel (length contacts) contacts 0
              {| total := Z.of_nat (length contacts); successful := 0; failed := 0;
                 failures := [] |} w Hw)
    as (r & w' & Hrun & _ & Ht & Hs & Hq & Hm & Hl).
  rewrite Hrun. exists r, w'. simpl in *. split; [reflexivity|].
  split; [exact Ht|]. split; [lia|]. split; [lia|]. split; [lia|].
  intros Hread.
  apply (bulk_loop_entries cfg format transport fuel message_template image_url
           callback _ _ _ _ _ _ _ Hread) in Hrun.
  simpl in Hrun. split; [lia|].
  intros Hquiet. specialize (Hq Hquiet Hread). lia.
Qed.

Lemma send_bulk_messages_summary_witness :
  exists results w',
    send_bulk_messages config plain_format fails_twice 64 [ann; nameless; ann]
      "Hi {name}" None (Some raising_callback) (init 0) = Some (results, w')
    /\ total results = 3
    /\ failed results = Z.of_nat (length (failures results))
    /\ 3 <= successful results + failed results <= 6.
Proof.
  destruct (send_bulk_messages_summary config plain_format fails_twice 64
              [ann; nameless; ann] "Hi {name}" None (Some raising_callback) (init 0))
    as (r & w' & Hrun & Ht & _ & _ & Hs & Hread).
  - reflexivity.
  - unfold enough. simpl. lia.
  - apply wf_init.
  - exists r, w'. split; [exact Hrun|]. split; [exact Ht|]. split.
    + apply Hread. intros n p v. unfold fails_twice.
      destruct (n <? 2)%nat; intros [= <-]; reflexivity.
    + rewrite Ht in Hs. exact Hs.
Defined.



(** X10.  When an image URL is given (a non-empty string), every request of
    the run is an image message with that URL: the rendered text of the
    template is never sent. *)
Theorem image_url_replaces_the_text
    cfg format (transport : Transport) fuel contacts message_template (url : string)
    callback (w : World) :
  0 < RATE_LIMIT cfg -> enough cfg 0 fuel -> wf w -> url <> "" ->
  exists results w' new,
    send_bulk_messages cfg format transport fuel contacts message_template
      (Some url) callback w = Some (results, w')
    /\ posted (trace w') = posted (trace w) ++ new
    /\ Forall (is_image_payload url) new.
Proof.
  intros Hcap Hfuel Hw Hurl. unfold send_bulk_messages.
  destruct (bulk_loop_returns cfg format transport Hcap fuel message_template
              (Some url) callback Hfuel (length contacts) contacts 0
              {| total := Z.of_nat (length contacts); successful := 0; failed := 0;
                 failures := [] |} w Hw)
    as (r & w' & Hrun & _).
  rewrite Hrun. apply (bulk_loop_posted cfg format transport Hcap) in Hrun.
  destruct Hrun as ((new & Hp & Hf) & _).
  exists r, w', new. split; [reflexivity|]. split; [exact Hp|].
  eapply Forall_impl; [exact Hf|].
  intros p (c & pn & m & _ & _ & _ & ->). exists pn. unfold build_payload.
  rewrite bool_decide_eq_false_2 by exact Hurl. reflexivity.
Qed.

Lemma image_url_replaces_the_text_witness :
  exists results w' new,
    send_bulk_messages config plain_format always_ok 64 [ann] "Hi {name}"
      (Some "https://example.org/a.png") None (init 0) = Some (results, w')
    /\ posted (trace w') = new
    /\ Forall (is_image_payload "https://example.org/a.png") new.
Proof.
  destruct (image_url_replaces_the_text config plain_format always_ok 64 [ann]
              "Hi {name}" "https://example.org/a.png" None (init 0))
    as (r & w' & new & Hrun & Hp & Hf).
  - reflexivity.
  - unfold enough. simpl. lia.
  - apply wf_init.
  - discriminate.
  - exists r, w', new. split; [exact Hrun|]. split; [exact Hp | exact Hf].
Defined.

(** X11.  A run of [send_bulk_messages] keeps the count of the rate limiter
    between 0 and the cap, never sets the clock back and leaves a window
    that does not start in the future. *)
Theorem send_bulk_messages_keeps_the_count_within_the_cap
    cfg format (transport : Transport) fuel contacts message_template image_url
    callback (w : World) :
  0 < RATE_LIMIT cfg -> enough cfg 0 fuel -> wf w ->
  0 <= message_count (self w) <= RATE_LIMIT cfg ->
  exists results w',
    send_bulk_messages cfg format transport fuel contacts message_template
      image_url callback w = Some (results, w')
    /\ 0 <= message_count (self w') <= RATE_LIMIT cfg
    /\ (clock w <= clock w')%Q
    /\ wf w'.
Proof.
  intros Hcap Hfuel Hw Hcount. unfold send_bulk_messages.
  destruct (bulk_loop_returns cfg format transport Hcap fuel message_template
              image_url callback Hfuel (length contacts) contacts 0
              {| total := Z.of_nat (length contacts); successful := 0; failed := 0;
                 failures := [] |} w Hw)
    as (r & w' & Hrun & Hw' & _).
  rewrite Hrun. apply (bulk_loop_posted cfg format transport Hcap) in Hrun.
  destruct Hrun as (_ & Hle & Hnn & Hclock).
  exists r, w'. split; [reflexivity|]. split; [lia|]. split; [exact Hclock | exact Hw'].
Qed.

Lemma send_bulk_messages_keeps_the_count_within_the_cap_witness :
  exists results w',
    send_bulk_messages cap_two plain_format always_ok 64 [ann; ann; ann]
      "Hi {name}" None None (init 0) = Some (results, w')
    /\ 0 <= message_count (self w') <= 2.
Proof.
  destruct (send_bulk_messages_keeps_the_count_within_the_cap cap_two plain_format
              always_ok 64 [ann; ann; ann] "Hi {name}" None None (init 0))
    as (r & w' & Hrun & Hc & _).
  - reflexivity.
  - unfold enough. simpl. lia.
  - apply wf_init.
  - simpl. lia.
  - exists r, w'. split; [exact Hrun | exact Hc].
Defined.

Lemma send_message_first_ok cfg (transport : Transport) fuel phone_number message
    image_url retry_count (d : Value) (w : World) :
  0 < RATE_LIMIT cfg -> wf w -> enough cfg retry_count fuel ->
  transport (posts (trace w)) (build_payload phone_number message image_url)
  = Response 200 (Return d) ->
  exists w',
    send_message cfg transport fuel phone_number message image_url retry_count w
    = Some (Return d, w')
    /\ wf w'
    /\ posts (trace w') = S (posts (trace w))
    /\ ok_posts (trace w') = S (ok_posts (trace w))
    /\ backoffs (trace w') = backoffs (trace w)
    /\ progress_calls (trace w') = progress_calls (trace w)
    /\ (message_count (self w') = message_count (self w) + 1
        /\ last_reset_time (self w') = last_reset_time (self w)
        \/ message_count (self w') = 1
           /\ (60 <= last_reset_time (self w') - last_reset_time (self w))%Q).
Proof.
  intros Hcap Hw Hfuel Hok.
  destruct fuel as [|fuel]; [unfold enough in Hfuel; lia|].
  rewrite send_message_unfold.
  destruct (wait_returns cfg Hcap (S fuel) w Hw) as (w1 & Hw1 & Hwait);
    [unfold enough in Hfuel; lia|].
  rewrite Hw1. apply wait_self in Hw1.
  cbv zeta. rewrite (waited_posts _ _ _ Hwait), Hok. simpl.
  eexists. split; [reflexivity|]. split; [exact (waited_wf _ _ _ Hwait Hw)|]. simpl.
  rewrite posts_app, ok_posts_app, backoffs_app, progress_calls_app,
    (waited_posts _ _ _ Hwait), (waited_ok_posts _ _ _ Hwait),
    (waited_backoffs _ _ _ Hwait), (waited_progress _ _ _ Hwait).
  simpl. rewrite app_nil_r.
  do 4 (split; [first [reflexivity | unfold posts, ok_posts, backoffs; simpl; lia]|]).
  destruct Hw1 as [->|[-> Hle]]; [left|right]; auto.
Qed.

(** X12.  A response with status 200 whose body has an ["error"] entry is
    returned by [send_message] as a success after one request, and the rate
    limiter counts it: [message_count] is one more than before, or 1 when
    the wait has started a new window.  But [send_bulk_messages] records the
    contact as failed, with the value of that entry as the error. *)
Theorem error_entry_in_accepted_body_is_a_failure
    cfg format (transport : Transport) fuel message_template image_url
    (c : Contact) phone_number custom_message (d : Dict) (err : Value)
    n index results (w : World) :
  0 < RATE_LIMIT cfg -> wf w -> enough cfg 0 fuel ->
  format message_template c = Return custom_message ->
  c !! "phone_number" = Some phone_number ->
  transport (posts (trace w)) (build_payload phone_number custom_message image_url)
  = Response 200 (Return (VDict d)) ->
  d !! "error" = Some err ->
  exists w',
    send_message cfg transport fuel phone_number custom_message image_url 0 w
    = Some (Return (VDict d), w')
    /\ posts (trace w') = S (posts (trace w))
    /\ ok_posts (trace w') = S (ok_posts (trace w))
    /\ (message_count (self w') = message_count (self w) + 1
        /\ last_reset_time (self w') = last_reset_time (self w)
        \/ message_count (self w') = 1
           /\ (60 <= last_reset_time (self w') - last_reset_time (self w))%Q)
    /\ process_contact cfg format transport fuel message_template image_url None
         n index c results w
       = Some (record_failure c err results, w').
Proof.
  intros Hcap Hw Hfuel Hfmt Hphone Hok Herr.
  destruct (send_message_first_ok cfg transport fuel phone_number custom_message
              image_url 0 (VDict d) w Hcap Hw Hfuel Hok)
    as (w' & Hrun & _ & Hp & Ho & _ & _ & Hcount).
  exists w'. repeat split; auto.
  unfold process_contact. rewrite Hfmt, Hphone, Hrun, update_results_dict, Herr.
  reflexivity.
Qed.

Lemma error_entry_in_accepted_body_is_a_failure_witness :
  exists w',
    process_contact config plain_format answers_error_body 64 "Hi {name}" None None
      1 0 ann (fresh_results 1) (init 0)
    = Some (record_failure ann (VStr "unsupported message") (fresh_results 1), w')
    /\ message_count (self w') = 1.
Proof.
  destruct (error_entry_in_accepted_body_is_a_failure config plain_format
              answers_error_body 64 "Hi {name}" None ann "+14155552671" "Hi Ann"
              error_body (VStr "unsupported message") 1%nat 0%nat (fresh_results 1)
              (init 0)) as (w' & _ & _ & _ & Hcount & Hstep).
  - reflexivity.
  - apply wf_init.
  - unfold enough. simpl. lia.
  - vm_compute. reflexivity.
  - vm_compute. reflexivity.
  - reflexivity.
  - reflexivity.
  - exists w'. split; [exact Hstep|].
    destruct Hcount as [[Hcount _]|[Hcount _]]; exact Hcount.
Defined.



(** X22.  A response with status 200 whose body has ["error"] in it without
    being a dictionary (the string ['error: rate limited'], a list with the
    element ['error']) is counted as failed twice: once by the update of the
    results and once more by the [except] branch, which catches the
    [TypeError] of [response["error"]].  The contact gets a single entry in
    [failures], with the text of that [TypeError], no success is counted and
    the progress callback is not called. *)
Theorem unreadable_error_is_counted_twice
    cfg format (transport : Transport) fuel message_template image_url callback
    (c : Contact) phone_number custom_message (body : Value) (e : exn)
    n index results (w : World) :
  0 < RATE_LIMIT cfg -> wf w -> enough cfg 0 fuel ->
  format message_template c = Return custom_message ->
  c !! "phone_number" = Some phone_number ->
  transport (posts (trace w)) (build_payload phone_number custom_message image_url)
  = Response 200 (Return body) ->
  contains "error" body = Return true ->
  getitem "error" body = Raise e ->
  exists results' w',
    process_contact cfg format transport fuel message_template image_url callback
      n index c results w = Some (results', w')
    /\ total results' = total results
    /\ successful results' = successful results
    /\ failed results' = failed results + 2
    /\ failures results'
       = failures results ++ [ {| contact := c; error := VStr (str_exn e) |} ]
    /\ posts (trace w') = S (posts (trace w))
    /\ progress_calls (trace w') = progress_calls (trace w).
Proof.
  intros Hcap Hw Hfuel Hfmt Hphone Hok Hin Hget.
  destruct (send_message_first_ok cfg transport fuel phone_number custom_message
              image_url 0 body w Hcap Hw Hfuel Hok)
    as (w' & Hrun & _ & Hp & _ & _ & Hg & _).
  eexists _, w'. split.
  - unfold process_contact, update_results.
    rewrite Hfmt, Hphone, Hrun, Hin, Hget. reflexivity.
  - simpl. repeat split; auto; lia.
Qed.

Lemma unreadable_error_is_counted_twice_witness :
  exists results' w',
    process_contact config plain_format answers_error_text 64 "Hi {name}" None
      (Some quiet_callback) 1 0 ann (fresh_results 1) (init 0) = Some (results', w')
    /\ successful results' = 0
    /\ failed results' = 2
    /\ failures results'
       = [ {| contact := ann;
              error := VStr "string indices must be integers, not 'str'" |} ]
    /\ progress_calls (trace w') = [].
Proof.
  destruct (unreadable_error_is_counted_twice config plain_format answers_error_text
              64 "Hi {name}" None (Some quiet_callback) ann "+14155552671" "Hi Ann"
              (VStr "error: rate limited")
              (TypeError "string indices must be integers, not 'str'")
              1%nat 0%nat (fresh_results 1) (init 0))
    as (r & w' & Hstep & _ & Hs & Hf & Hl & _ & Hg).
  - reflexivity.
  - apply wf_init.
  - unfold enough. simpl. lia.
  - vm_compute. reflexivity.
  - vm_compute. reflexivity.
  - reflexivity.
  - vm_compute. reflexivity.
  - reflexivity.
  - exists r, w'. split; [exact Hstep|]. split; [exact Hs|]. split; [exact Hf|].
    split; [exact Hl | exact Hg].
Defined.

(** The same for a whole run, without a callback: one contact, and counts
    that add up to 2. *)
Example error_text_body_breaks_the_counts :
  exists w',
    send_bulk_messages config plain_format answers_error_text 64 [ann] "Hi {name}"
      None None (init 0)
    = Some ({| total := 1; successful := 0; failed := 2;
               failures :=
                 [ {| contact := ann;
                      error := VStr "string indices must be integers, not 'str'" |} ] |},
            w').
Proof. eexists. vm_compute. reflexivity. Qed.

Section AllAccepted.

Variable cfg : Config.
Variable format : string -> Contact -> Result string.
Variable transport : Transport.
Hypothesis cap_positive : 0 < RATE_LIMIT cfg.
Hypothesis all_accepted : accepts_all transport.

Variable fuel : nat.
Variable message_template : string.
Variable image_url : option string.
Variable callback : option Callback.
Hypothesis fuel_enough : enough cfg 0 fuel.
Hypothesis callback_quiet : quiet callback.

Local Abbreviation loop :=
  (bulk_loop cfg format transport fuel message_template image_url callback).

Lemma bulk_loop_all_accepted n contacts : forall index results w,
  Forall (sendable format message_template) contacts -> wf w ->
  exists results' w',
    loop n index contacts results w = Some (results', w')
    /\ total results' = total results
    /\ successful results' = successful results + Z.of_nat (length contacts)
    /\ failed results' = failed results
    /\ failures results' = failures results
    /\ posts (trace w') = (posts (trace w) + length contacts)%nat
    /\ backoffs (trace w') = backoffs (trace w).
Proof.
  induction contacts as [|c rest IH]; intros index results w Hall Hw.
  - exists results, w. simpl. repeat split; auto; lia.
  - inversion Hall as [|? ? [[custom_message Hfmt] [phone_number Hphone]] Hrest]; subst.
    cbn [bulk_loop]. unfold process_contact. rewrite Hfmt, Hphone.
    destruct (all_accepted (posts (trace w))
                (build_payload phone_number custom_message image_url))
      as (d & Hanswer & Hd).
    destruct (send_message_first_ok cfg transport fuel phone_number custom_message
                image_url 0 d w cap_positive Hw fuel_enough Hanswer)
      as (w1 & -> & Hw1 & Hp1 & _ & Hb1 & _).
    unfold update_results. rewrite Hd.
    assert (Hnext : forall w2 : World,
      wf w2 -> posts (trace w2) = posts (trace w1) ->
      backoffs (trace w2) = backoffs (trace w1) ->
      exists results' w',
        loop n (S index) rest (record_success results) w2 = Some (results', w')
        /\ total results' = total results
        /\ successful results' = successful results + Z.of_nat (length (c :: rest))
        /\ failed results' = failed results
        /\ failures results' = failures results
        /\ posts (trace w') = (posts (trace w) + length (c :: rest))%nat
        /\ backoffs (trace w') = backoffs (trace w)).
    { intros w2 Hw2 Hp2 Hb2.
      destruct (IH (S index) (record_success results) w2 Hrest Hw2)
        as (r' & w' & -> & Ht & Hs & Hf & Hl & Hp & Hb).
      exists r', w'. simpl in *. repeat split; auto; lia. }
    destruct callback as [cb|].
    + simpl in callback_quiet. rewrite callback_quiet. apply Hnext.
      * exact Hw1.
      * simpl. rewrite posts_app. unfold posts at 2. simpl. lia.
      * simpl. rewrite backoffs_app. unfold backoffs at 2. simpl. lia.
    + apply Hnext; auto.
Qed.

End AllAccepted.

(** X14.  When the transport accepts every request (status 200, a body
    without an ["error"] entry), every contact reaches [send_message] and
    the callback, if any, returns normally, all contacts are counted as
    successful: there are no failures, one request per contact and no retry
    delay. *)
Theorem all_accepted_run_is_all_successful
    cfg format (transport : Transport) fuel contacts message_template image_url
    callback (w : World) :
  0 < RATE_LIMIT cfg -> enough cfg 0 fuel -> wf w ->
  accepts_all transport -> quiet callback ->
  Forall (sendable format message_template) contacts ->
  exists results w',
    send_bulk_messages cfg format transport fuel contacts message_template
      image_url callback w = Some (results, w')
    /\ successful results = total results
    /\ failed results = 0
    /\ failures results = []
    /\ posts (trace w') = (posts (trace w) + length contacts)%nat
    /\ backoffs (trace w') = backoffs (trace w).
Proof.
  intros Hcap Hfuel Hw Hacc Hquiet Hall. unfold send_bulk_messages.
  destruct (bulk_loop_all_accepted cfg format transport Hcap Hacc fuel message_template
              image_url callback Hfuel Hquiet (length contacts) contacts 0
              {| total := Z.of_nat (length contacts); successful := 0; failed := 0;
                 failures := [] |} w Hall Hw)
    as (r & w' & -> & Ht & Hs & Hf & Hl & Hp & Hb).
  exists r, w'. simpl in *. repeat split; auto; lia.
Qed.

Lemma all_accepted_run_is_all_successful_witness :
  exists results w',
    send_bulk_messages config plain_format always_ok 64 [ann; ann] "Hi {name}" None
      (Some quiet_callback) (init 0) = Some (results, w')
    /\ successful results = total results
    /\ failed results = 0.
Proof.
  destruct (all_accepted_run_is_all_successful config plain_format always_ok 64
              [ann; ann] "Hi {name}" None (Some quiet_callback) (init 0))
    as (r & w' & Hrun & Hs & Hf & _).
  - reflexivity.
  - unfold enough. simpl. lia.
  - apply wf_init.
  - intros n p. exists (VDict accepted). split; reflexivity.
  - intros p r. reflexivity.
  - repeat constructor; try (eexists; vm_compute; reflexivity).
  - exists r, w'. split; [exact Hrun|]. split; [exact Hs | exact Hf].
Defined.

(** X15.  When every contact reaches [send_message], no exception other
    than a request exception comes from the transport, every body answered
    with status 200 is one the update of the results accepts (a dictionary,
    or a list or a string without ["error"] in it) and the callback returns
    normally, the callback is called exactly once per contact, in the order
    of the list; call [i] gets the float [(i + 1) / len(contacts) * 100] and
    results in which exactly [i + 1] contacts are counted. *)
Theorem progress_is_reported_for_every_contact
    cfg format (transport : Transport) fuel contacts message_template image_url
    (cb : Callback) (w : World) :
  0 < RATE_LIMIT cfg -> 0 <= RETRY_DELAY cfg -> enough cfg 0 fuel -> wf w ->
  (forall n p, tame (transport n p) = true) ->
  answers_updatable transport ->
  (forall progress results, cb progress results = None) ->
  Forall (sendable format message_template) contacts ->
  exists results w' calls,
    send_bulk_messages cfg format transport fuel contacts message_template
      image_url (Some cb) w = Some (results, w')
    /\ progress_calls (trace w') = progress_calls (trace w) ++ calls
    /\ length calls = length contacts
    /\ (forall i progress snapshot,
          calls !! i = Some (progress, snapshot) ->
          progress = progress_of i (length contacts)
          /\ total snapshot = Z.of_nat (length contacts)
          /\ successful snapshot + failed snapshot = Z.of_nat i + 1).
Proof.
  intros Hcap Hdelay Hfuel Hw Htame Hupd Hquiet Hall.
  destruct (send_bulk_messages_reports cfg format transport Hcap Hdelay Htame Hupd fuel
              message_template image_url cb Hfuel Hquiet contacts w Hall Hw)
    as (r & w' & calls & Hrun & Hp & Hl & Hc).
  exists r, w', calls. auto.
Qed.

Lemma progress_is_reported_for_every_contact_witness :
  exists results w' calls,
    send_bulk_messages config plain_format fails_twice 64 [ann; ann] "Hi {name}" None
      (Some quiet_callback) (init 0) = Some (results, w')
    /\ progress_calls (trace w') = calls
    /\ calls.*1 = [50%float; 100%float].
Proof.
  destruct (progress_is_reported_for_every_contact config plain_format fails_twice 64
              [ann; ann] "Hi {name}" None quiet_callback (init 0))
    as (r & w' & calls & Hrun & Hp & Hl & Hc).
  - reflexivity.
  - discriminate.
  - unfold enough. simpl. lia.
  - apply wf_init.
  - intros n p. unfold fails_twice. destruct (n <? 2)%nat; reflexivity.
  - intros n p v. unfold fails_twice. destruct (n <? 2)%nat; intros [= <-]; reflexivity.
  - intros p r. reflexivity.
  - repeat constructor; try (eexists; vm_compute; reflexivity).
  - exists r, w', calls. split; [exact Hrun|]. split; [exact Hp|].
    destruct calls as [|[p0 s0] [|[p1 s1] [|]]]; try discriminate.
    destruct (Hc 0%nat p0 s0 eq_refl) as (-> & _).
    destruct (Hc 1%nat p1 s1 eq_refl) as (-> & _).
    reflexivity.
Defined.

Section FailuresInOrder.

Variable cfg : Config.
Variable format : string -> Contact -> Result string.
Variable transport : Transport.
Variable fuel : nat.
Variable message_template : string.
Variable image_url : option string.
Variable callback : option Callback.

Local Abbreviation step :=
  (process_contact cfg format transport fuel message_template image_url callback).
Local Abbreviation loop :=
  (bulk_loop cfg format transport fuel message_template image_url callback).

Lemma process_contact_failures_of n index c results w results' w' :
  step n index c results w = Some (results', w') ->
  exists more,
    failures results' = failures results ++ more
    /\ (contact <$> more) `sublist_of` [c; c]
    /\ (quiet callback -> (contact <$> more) `sublist_of` [c]).
Proof.
  unfold process_contact, on_exception.
  assert (Hone : forall err (r : Results),
    failures r = failures results ->
    exists more,
      failures (record_failure c err r) = failures results ++ more
      /\ (contact <$> more) `sublist_of` [c; c]
      /\ (quiet callback -> (contact <$> more) `sublist_of` [c])).
  { intros err r Hr. exists [ {| contact := c; error := err |} ]. simpl. rewrite Hr.
    split; [reflexivity|]. split; [|reflexivity]. apply sublist_cons. reflexivity. }
  destruct (format message_template c) as [custom_message|e];
    [|intros [= <- _]; apply Hone; reflexivity].
  destruct (c !! "phone_number") as [phone_number|];
    [|intros [= <- _]; apply Hone; reflexivity].
  destruct (send_message _ _ _ _ _ _ _ _) as [[[response|e] w1]|]; [| |discriminate].
  2:{ intros [= <- _]. apply Hone. reflexivity. }
  pose proof (update_results_spec c response results) as Hupd.
  destruct (update_results c response results) as [r1|[e r1]].
  2:{ intros [= <- _]. apply Hone.
      destruct Hupd as (_ & [[-> _]|[-> _]]); reflexivity. }
  destruct Hupd as (_ & _ & _ & _ & _ & more & Hmore & Hsub).
  assert (Hret : exists more0,
    failures r1 = failures results ++ more0
    /\ (contact <$> more0) `sublist_of` [c; c]
    /\ (quiet callback -> (contact <$> more0) `sublist_of` [c])).
  { exists more. split; [exact Hmore|]. split; [|auto].
    apply sublist_cons. exact Hsub. }
  destruct callback as [cb|] eqn:Hcb; [|intros [= <- _]; exact Hret].
  destruct (cb (progress_of index n) r1) as [e|] eqn:Hraise;
    [|intros [= <- _]; exact Hret].
  intros [= <- _]. simpl. rewrite Hmore, <- app_assoc.
  exists (more ++ [ {| contact := c; error := VStr (str_exn e) |} ]).
  split; [reflexivity|]. rewrite fmap_app. simpl. split.
  - change [c; c] with ([c] ++ [c]). apply sublist_app; [exact Hsub | reflexivity].
  - intros Hq. simpl in Hq. rewrite Hq in Hraise. discriminate.
Qed.

Lemma bulk_loop_failures_of n contacts : forall index results w results' w',
  loop n index contacts results w = Some (results', w') ->
  exists more,
    failures results' = failures results ++ more
    /\ (contact <$> more) `sublist_of` (contacts ≫= fun c => [c; c])
    /\ (quiet callback -> (contact <$> more) `sublist_of` contacts).
Proof.
  induction contacts as [|c rest IH]; intros index results w results' w'.
  - intros [= <- _]. exists []. rewrite app_nil_r. simpl. auto.
  - cbn [bulk_loop].
    destruct (step n index c results w) as [[r1 w1]|] eqn:Hstep; [|discriminate].
    intros Hloop. apply process_contact_failures_of in Hstep. apply IH in Hloop.
    destruct Hstep as (m1 & H1 & Hs1 & Hq1). destruct Hloop as (m2 & H2 & Hs2 & Hq2).
    exists (m1 ++ m2). split; [rewrite H2, H1, app_assoc; reflexivity|].
    rewrite fmap_app. split.
    + change ((c :: rest) ≫= fun c => [c; c])
        with ([c; c] ++ (rest ≫= fun c => [c; c])).
      apply sublist_app; assumption.
    + intros Hq. change (c :: rest) with ([c] ++ rest). apply sublist_app; auto.
Qed.

End FailuresInOrder.

(** X16.  The entries of [failures] follow the contact list: their contacts
    are contacts of the list, in the order of the list, each at most twice
    (an error response followed by a callback that raises), and at most once
    when there is no callback or the callback returns normally. *)
Theorem failures_follow_the_contact_list
    cfg format (transport : Transport) fuel contacts message_template image_url
    callback (w : World) :
  0 < RATE_LIMIT cfg -> enough cfg 0 fuel -> wf w ->
  exists results w',
    send_bulk_messages cfg format transport fuel contacts message_template
      image_url callback w = Some (results, w')
    /\ (contact <$> failures results) `sublist_of` (contacts ≫= fun c => [c; c])
    /\ (quiet callback -> (contact <$> failures results) `sublist_of` contacts).
Proof.
  intros Hcap Hfuel Hw. unfold send_bulk_messages.
  destruct (bulk_loop_returns cfg format transport Hcap fuel message_template
              image_url callback Hfuel (length contacts) contacts 0
              {| total := Z.of_nat (length contacts); successful := 0; failed := 0;
                 failures := [] |} w Hw)
    as (r & w' & Hrun & _).
  rewrite Hrun. apply bulk_loop_failures_of in Hrun.
  destruct Hrun as (more & Hf & Hs & Hq). simpl in Hf. subst more.
  exists r, w'. auto.
Qed.

Lemma failures_follow_the_contact_list_witness :
  exists results w',
    send_bulk_messages config plain_format always_500 64 [ann; nameless; ann]
      "Hi {name}" None None (init 0) = Some (results, w')
    /\ (contact <$> failures results) `sublist_of` [ann; nameless; ann].
Proof.
  destruct (failures_follow_the_contact_list config plain_format always_500 64
              [ann; nameless; ann] "Hi {name}" None None (init 0))
    as (r & w' & Hrun & _ & Hq).
  - reflexivity.
  - unfold enough. simpl. lia.
  - apply wf_init.
  - exists r, w'. split; [exact Hrun|]. apply Hq. exact I.
Defined.

(** ** The phone number helpers, further *)

Lemma join_filter_idempotent (p : ascii -> bool) (s : string) :
  join_filter p (join_filter p s) = join_filter p s.
Proof.
  induction s as [|ch s IH]; simpl; [reflexivity|].
  destruct (p ch) eqn:Hp; simpl; rewrite ?Hp, IH; reflexivity.
Qed.

Lemma join_filter_length (p : ascii -> bool) (s : string) :
  (String.length (join_filter p s) <= String.length s)%nat.
Proof.
  induction s as [|ch s IH]; simpl; [lia|]. destruct (p ch); simpl; lia.
Qed.

Lemma format_phone_number_digits (s : string) :
  join_filter isdigit (format_phone_number s) = join_filter isdigit s.
Proof.
  unfold format_phone_number. rewrite join_filter_no_plus. simpl.
  apply join_filter_idempotent.
Qed.

(** X17.  [format_phone_number] is idempotent, and formatting a number does
    not change whether [validate_phone_number] accepts it: both look at the
    digits only, which formatting keeps. *)
Theorem format_phone_number_is_a_normal_form (s : string) :
  format_phone_number (format_phone_number s) = format_phone_number s
  /\ validate_phone_number (format_phone_number s) = validate_phone_number s
  /\ join_filter isdigit (format_phone_number s) = join_filter isdigit s.
Proof.
  pose proof (format_phone_number_digits s) as Hd.
  split; [|split; [|exact Hd]].
  - unfold format_phone_number at 1. rewrite Hd.
    unfold format_phone_number. rewrite join_filter_no_plus. reflexivity.
  - unfold validate_phone_number. rewrite Hd. reflexivity.
Qed.

(** X18.  A string with fewer than 10 characters is never a valid phone
    number, and for a string without any digit [format_phone_number]
    returns ["+"] alone. *)
Theorem short_or_digitless_input (s : string) :
  (len s < 10 -> validate_phone_number s = false)
  /\ (join_filter isdigit s = "" ->
      format_phone_number s = "+" /\ validate_phone_number s = false).
Proof.
  split.
  - intros Hshort. unfold validate_phone_number, len in *.
    pose proof (join_filter_length isdigit s) as Hle.
    destruct (Z.ltb_spec (Z.of_nat (String.length (join_filter isdigit s))) 10);
      [reflexivity | lia].
  - intros Hnone. unfold format_phone_number, validate_phone_number.
    rewrite Hnone. split; reflexivity.
Qed.

Lemma short_or_digitless_input_witness :
  validate_phone_number "555-1234" = false /\ format_phone_number "n/a" = "+".
Proof.
  split.
  - apply (proj1 (short_or_digitless_input "555-1234")). reflexivity.
  - apply (proj2 (short_or_digitless_input "n/a")). reflexivity.
Defined.

(** ** The logger *)

Lemma getLogger_lookup (name : string) (loggers : Loggers) :
  snd (getLogger name loggers) !! name = Some (fst (getLogger name loggers)).
Proof.
  unfold getLogger. destruct (loggers !! name) as [logger|] eqn:Hl; simpl.
  - exact Hl.
  - apply lookup_insert_eq.
Qed.

Lemma setup_logger_lookup (name : string) (loggers : Loggers) :
  snd (setup_logger name loggers) !! name = Some (fst (setup_logger name loggers)).
Proof.
  unfold setup_logger. destruct (getLogger name loggers) as [logger loggers'].
  destruct (negb (is_empty (handlers _))); simpl; apply lookup_insert_eq.
Qed.

Lemma setup_logger_handlers (name : string) (loggers : Loggers) :
  handlers (fst (setup_logger name loggers)) <> []
  /\ level (fst (setup_logger name loggers)) = LOG_LEVEL_INFO.
Proof.
  unfold setup_logger. destruct (getLogger name loggers) as [logger loggers'].
  cbn [handlers level].
  destruct (handlers logger) as [|h hs] eqn:Hh; simpl; split; auto; discriminate.
Qed.

(** X19.  [setup_logger] adds its handlers once: a second call for the same
    name returns the same logger and leaves the loggers as the first call
    left them, so no handler is ever duplicated, however many modules call
    it. *)
Theorem setup_logger_is_idempotent (name : string) (loggers : Loggers) :
  setup_logger name (snd (setup_logger name loggers)) = setup_logger name loggers.
Proof.
  pose proof (setup_logger_lookup name loggers) as Hlook.
  pose proof (setup_logger_handlers name loggers) as [Hne Hlevel].
  destruct (setup_logger name loggers) as [logger loggers'] eqn:Hfirst.
  cbn [fst snd] in *.
  unfold setup_logger at 1. unfold getLogger. rewrite Hlook.
  destruct logger as [lv hs]. cbn [handlers level] in *. subst lv.
  destruct hs as [|h hs]; [congruence|]. simpl.
  rewrite insert_id by exact Hlook. reflexivity.
Qed.

(** X20.  On loggers where [whatsapp_messenger] has no handler yet,
    [setup_logger] with the default name gives it exactly the console, the
    file and the Qt handler, in this order, at level INFO, and
    [get_qt_handler] then returns that Qt handler. *)
Theorem setup_logger_then_get_qt_handler (loggers : Loggers) :
  handlers (fst (getLogger "whatsapp_messenger" loggers)) = [] ->
  let '(logger, loggers') := setup_logger "whatsapp_messenger" loggers in
  logger = {| level := LOG_LEVEL_INFO;
              handlers := [StreamHandler "stdout" LOG_FORMAT;
                           RotatingFileHandler LOG_FILE (1024 * 1024) 5 LOG_FORMAT;
                           QtHandler LOG_FORMAT] |}
  /\ get_qt_handler loggers' = (Some (QtHandler LOG_FORMAT), loggers').
Proof.
  intros Hfresh. unfold setup_logger.
  destruct (getLogger "whatsapp_messenger" loggers) as [logger loggers1] eqn:Hget.
  cbn [fst] in Hfresh. cbn [handlers level]. rewrite Hfresh. simpl.
  split; [reflexivity|].
  unfold get_qt_handler, getLogger. rewrite lookup_insert_eq. reflexivity.
Qed.

Lemma setup_logger_then_get_qt_handler_witness :
  get_qt_handler (snd (setup_logger "whatsapp_messenger" ∅))
  = (Some (QtHandler LOG_FORMAT), snd (setup_logger "whatsapp_messenger" ∅)).
Proof.
  assert (Hfresh : handlers (fst (getLogger "whatsapp_messenger" (∅ : Loggers))) = [])
    by reflexivity.
  pose proof (setup_logger_then_get_qt_handler ∅ Hfresh) as H.
  destruct (setup_logger "whatsapp_messenger" ∅) as [logger loggers'].
  exact (proj2 H).
Defined.

(** X21.  When the logger already has handlers and none of them is a Qt
    handler, [setup_logger] adds nothing (it only sets the level), and
    [get_qt_handler] returns [None]: the log viewer is not connected. *)
Theorem preconfigured_logger_gets_no_qt_handler (loggers : Loggers) (logger : Logger) :
  loggers !! "whatsapp_messenger" = Some logger ->
  handlers logger <> [] ->
  first_qt_handler (handlers logger) = None ->
  let '(logger', loggers') := setup_logger "whatsapp_messenger" loggers in
  logger' = {| level := LOG_LEVEL_INFO; handlers := handlers logger |}
  /\ fst (get_qt_handler loggers') = None.
Proof.
  intros Hlook Hne Hnoqt. unfold setup_logger, getLogger. rewrite Hlook.
  cbn [handlers].
  destruct (handlers logger) as [|h hs] eqn:Hh; [congruence|]. simpl.
  split; [reflexivity|].
  unfold get_qt_handler, getLogger. rewrite lookup_insert_eq. simpl. exact Hnoqt.
Qed.

Lemma preconfigured_logger_gets_no_qt_handler_witness :
  fst (get_qt_handler (snd (setup_logger "whatsapp_messenger" preconfigured))) = None.
Proof.
  assert (Hlook : preconfigured !! "whatsapp_messenger"
                  = Some {| level := 30;
                            handlers := [StreamHandler "stderr" "%(message)s"] |})
    by reflexivity.
  pose proof (preconfigured_logger_gets_no_qt_handler preconfigured _ Hlook
                ltac:(discriminate) eq_refl) as H.
  destruct (setup_logger "whatsapp_messenger" preconfigured) as [logger' loggers'].
  exact (proj2 H).
Defined.
